(** * schema-gen: type inference, multi-example merge and the four renderers

    A shallow embedding of [src/type-inference.ts], the generators
    ([json-schema], [typescript], [zod], [api-doc]), the library facade
    [generateAll] ([index.ts]) and the CLI action ([cli.js]), followed by the
    properties of the specification and further properties of the code.

    Modelling conventions.
    - A JavaScript string is a [string]; a JSON number is a binary64 [float]
      (its value is never inspected by the code).
    - A JavaScript object used as a record ([Record<string, T>], a parsed JSON
      object) is the list of its own enumerable entries in enumeration order:
      array-index keys first, in ascending order, then the other keys in the
      order of their creation.  [Obj.get] is own-property lookup, [Obj.keys]
      is [Object.keys], [Obj.define] creates or overwrites an own property,
      and [Obj.set] is the assignment [o[k] = v], which for the key
      [__proto__] replaces the prototype and creates no own property.
    - A lookup [o[k]] on such a record also finds the members of
      [Object.prototype] ([js_prop]).  The prototype installed by an
      assignment to [__proto__] is not itself tracked: the model follows
      JavaScript as long as no merge looks up, on a record whose prototype
      was replaced, one of the own fields of the node that became its
      prototype ([kind], [properties], [items], [required]).
    - A [Set<string>] is a duplicate-free list in insertion order.
    - An optional field [f?: T] of an interface is an [option T]; [None] is
      [undefined].
    - [TypeDefinition.enum] is never read or written by the code and is left
      out of the record; the [default:] branches of the [switch]es over
      [kind] cannot be reached with the six kinds of [TypeKind]. *)

From Stdlib Require Import List String Ascii Bool Arith NArith Lia Floats.
From Equations Require Import Equations.
Import ListNotations.
Open Scope string_scope.
Open Scope list_scope.
Open Scope nat_scope.

(** String concatenation (JavaScript [+] and template literals). *)
Infix "+++" := String.append (right associativity, at level 60).

(** ** JavaScript objects as ordered records *)

Module Obj.

(** The value of a key that is an array index: a canonical numeric string
    below [2^32 - 1]. *)
Definition digit_of (c : ascii) : option N :=
  let n := N_of_ascii c in
  if (48 <=? n)%N && (n <=? 57)%N then Some (n - 48)%N else None.

Fixpoint digits_value (s : string) (acc : N) : option N :=
  match s with
  | EmptyString => Some acc
  | String c s' =>
      match digit_of c with
      | Some d => digits_value s' (acc * 10 + d)%N
      | None => None
      end
  end.

Definition array_index (k : string) : option N :=
  match k with
  | EmptyString => None
  | String c rest =>
      if Ascii.eqb c "0" then
        match rest with EmptyString => Some 0%N | _ => None end
      else if String.length k <=? 10 then
        match digits_value k 0%N with
        | Some n => if (n <? 4294967295)%N then Some n else None
        | None => None
        end
      else None
  end.

Section Ops.
Context {V : Type}.

Fixpoint get (k : string) (o : list (string * V)) : option V :=
  match o with
  | [] => None
  | (k', v) :: o' => if String.eqb k k' then Some v else get k o'
  end.

Definition keys (o : list (string * V)) : list string := map fst o.

Definition has (k : string) (o : list (string * V)) : bool :=
  match get k o with Some _ => true | None => false end.

(** Overwriting the value of an existing key keeps its place. *)
Fixpoint replace (k : string) (v : V) (o : list (string * V))
  : list (string * V) :=
  match o with
  | [] => []
  | (k', v') :: o' =>
      if String.eqb k k' then (k', v) :: o' else (k', v') :: replace k v o'
  end.

(** A new array-index key goes after the smaller array-index keys. *)
Fixpoint insert_index (n : N) (k : string) (v : V) (o : list (string * V))
  : list (string * V) :=
  match o with
  | [] => [(k, v)]
  | (k', v') :: o' =>
      match array_index k' with
      | Some m =>
          if (m <? n)%N then (k', v') :: insert_index n k v o'
          else (k, v) :: o
      | None => (k, v) :: o
      end
  end.

(** Creating or overwriting an own data property. *)
Definition define (k : string) (v : V) (o : list (string * V))
  : list (string * V) :=
  if has k o then replace k v o
  else match array_index k with
       | Some n => insert_index n k v o
       | None => o ++ [(k, v)]
       end.

(** The assignment [o[k] = v] of an object value [v]: with the key
    [__proto__], unless it is an own key, the setter inherited from
    [Object.prototype] replaces the prototype and no property is created. *)
Definition set (k : string) (v : V) (o : list (string * V))
  : list (string * V) :=
  if String.eqb k "__proto__" && negb (has k o) then o else define k v o.
End Ops.

End Obj.

(** [Set<string>.add]: insertion order, no duplicates. *)
Fixpoint set_add (k : string) (s : list string) : list string :=
  match s with
  | [] => [k]
  | k' :: s' => if String.eqb k k' then s else k' :: set_add k s'
  end.

(** [Set<string>.has] / [Array.includes] on strings. *)
Fixpoint str_mem (k : string) (s : list string) : bool :=
  match s with
  | [] => false
  | k' :: s' => if String.eqb k k' then true else str_mem k s'
  end.

(** [xs.filter(x => x !== undefined)] on a list of possibly-undefined values. *)
Fixpoint defined {A : Type} (xs : list (option A)) : list A :=
  match xs with
  | [] => []
  | Some x :: r => x :: defined r
  | None :: r => defined r
  end.

(** ** Data model *)

Unset Elimination Schemes.

(** A parsed JSON value. *)
Inductive JSON : Type :=
| JNull
| JString (s : string)
| JNumber (n : float)
| JBool (b : bool)
| JArray (elems : list JSON)
| JObject (entries : list (string * JSON)).

Inductive TypeKind : Type :=
| KString | KNumber | KBoolean | KArray | KObject | KNull.

Definition kind_eqb (a b : TypeKind) : bool :=
  match a, b with
  | KString, KString | KNumber, KNumber | KBoolean, KBoolean
  | KArray, KArray | KObject, KObject | KNull, KNull => true
  | _, _ => false
  end.

Inductive TypeDefinition : Type :=
  TypeDef {
    kind : TypeKind;
    properties : option (list (string * TypeDefinition));
    items : option TypeDefinition;
    required : option (list string);
    description : option string
  }.

Set Elimination Schemes.

(** Object literals of the source. *)
Definition prim (k : TypeKind) : TypeDefinition := TypeDef k None None None None.
Definition array_of (i : TypeDefinition) : TypeDefinition :=
  TypeDef KArray None (Some i) None None.
Definition object_of (ps : list (string * TypeDefinition)) (req : list string)
  : TypeDefinition :=
  TypeDef KObject (Some ps) None (Some req) None.

(** ** [inferType] *)

Fixpoint inferType (value : JSON) : TypeDefinition :=
  match value with
  | JNull => prim KNull
  | JString _ => prim KString
  | JNumber _ => prim KNumber
  | JBool _ => prim KBoolean
  | JArray [] => array_of (prim KString)
  | JArray (firstItem :: _) => array_of (inferType firstItem)
  | JObject entries =>
      let properties :=
        fold_left
          (fun (properties : list (string * TypeDefinition))
               (entry : string * JSON) =>
             Obj.set (fst entry) (inferType (snd entry)) properties)
          entries [] in
      object_of properties (Obj.keys entries)
  end.

(** ** Merging *)

Fixpoint td_size (t : TypeDefinition) : nat :=
  match t with
  | TypeDef _ ps it _ _ =>
      S (match ps with
         | Some l =>
             (fix sum (l : list (string * TypeDefinition)) : nat :=
                match l with
                | [] => 0
                | (_, x) :: r => td_size x + sum r
                end) l
         | None => 0
         end
         + match it with Some i => td_size i | None => 0 end)
  end.

Definition total_size (ts : list TypeDefinition) : nat :=
  fold_right (fun t n => td_size t + n) 0 ts.

(** The own property [propName] of [t.properties]. *)
Definition prop_of (propName : string) (t : TypeDefinition)
  : option TypeDefinition :=
  match properties t with
  | Some ps => Obj.get propName ps
  | None => None
  end.

(** [propName] is an own key of [t.properties]. *)
Definition has_prop (propName : string) (t : TypeDefinition) : bool :=
  match prop_of propName t with Some _ => true | None => false end.

(** The members of [Object.prototype]. *)
Definition objectPrototypeNames : list string :=
  ["constructor"; "__defineGetter__"; "__defineSetter__"; "hasOwnProperty";
   "__lookupGetter__"; "__lookupSetter__"; "isPrototypeOf";
   "propertyIsEnumerable"; "toString"; "valueOf"; "__proto__";
   "toLocaleString"].

(** The value of [t.properties?.[propName]]: an own property, which is a Type
    Node; else a member inherited from [Object.prototype], which is a function
    (for [__proto__], the prototype object) and has no [kind]; else
    [undefined]. *)
Inductive PropValue : Type :=
| PType (t : TypeDefinition)
| PInherited
| PUndefined.

Definition js_prop (propName : string) (t : TypeDefinition) : PropValue :=
  match properties t with
  | Some ps =>
      match Obj.get propName ps with
      | Some x => PType x
      | None =>
          if str_mem propName objectPrototypeNames then PInherited
          else PUndefined
      end
  | None => PUndefined
  end.

(** Truthiness: objects and functions are truthy, [undefined] is not. *)
Definition truthy (v : PropValue) : bool :=
  match v with PUndefined => false | _ => true end.

(** [v !== undefined] *)
Definition is_defined (v : PropValue) : bool :=
  match v with PUndefined => false | _ => true end.

Definition is_inherited (v : PropValue) : bool :=
  match v with PInherited => true | _ => false end.

(** [t.properties?.[propName]] as a condition. *)
Definition appears (propName : string) (t : TypeDefinition) : bool :=
  truthy (js_prop propName t).

(** The Type Nodes among looked-up values. *)
Fixpoint types_of (vs : list PropValue) : list TypeDefinition :=
  match vs with
  | [] => []
  | PType t :: r => t :: types_of r
  | _ :: r => types_of r
  end.

(** The first loop of [mergeObjectTypeDefinitions]: its body, adding the
    keys of one node, and the loop. *)
Definition add_type_names (names : list string) (type : TypeDefinition)
  : list string :=
  match properties type with
  | Some ps => fold_left (fun s key => set_add key s) (Obj.keys ps) names
  | None => names
  end.

Definition allPropertyNames (types : list TypeDefinition) : list string :=
  fold_left add_type_names types [].

(** [mergeTypes] and [mergeObjectTypeDefinitions] call each other; they are
    defined together as [merge], by well-founded recursion on the total size
    of the candidates, and told apart by the entry point. *)
Inductive merge_entry : Type := EnterMergeTypes | EnterMergeObject.

Definition merge_measure (w : merge_entry) (types : list TypeDefinition) : nat :=
  match w with
  | EnterMergeObject => 2 * total_size types + 1
  | EnterMergeTypes =>
      2 * total_size types + (if 2 <=? List.length types then 2 else 0)
  end.

(** Termination of the mutual recursion between [mergeTypes] and
    [mergeObjectTypeDefinitions]: every candidate handed down is a strict
    part of one of the nodes it was taken from. *)
Lemma total_size_props propName types :
  total_size (defined (map (prop_of propName) types)) + List.length types
  <= total_size types.
Proof.
  induction types as [|t ts IH]; simpl; [lia|].
  assert (Hp : match prop_of propName t with
               | Some x => td_size x < td_size t
               | None => 0 < td_size t
               end).
  { unfold prop_of. destruct t as [k ps it rq d]; simpl.
    destruct ps as [l|]; [|lia].
    induction l as [|[k' x] l IHl]; simpl; [lia|].
    destruct (String.eqb propName k'); [lia|].
    destruct (Obj.get propName l); lia. }
  destruct (prop_of propName t); simpl; lia.
Qed.

Lemma total_size_filter (f : TypeDefinition -> bool) types :
  total_size (filter f types) <= total_size types
  /\ List.length (filter f types) <= List.length types.
Proof.
  induction types as [|t ts IH]; simpl; [lia|].
  destruct (f t); simpl; lia.
Qed.

Lemma total_size_items types :
  total_size (defined (map items types)) + List.length types <= total_size types.
Proof.
  induction types as [|t ts IH]; simpl; [lia|].
  destruct t as [k ps it rq d]; simpl.
  destruct it; simpl; lia.
Qed.

Lemma merge_measure_props propName types :
  merge_measure EnterMergeTypes (defined (map (prop_of propName) types))
  < merge_measure EnterMergeObject types.
Proof.
  pose proof (total_size_props propName types) as H.
  unfold merge_measure.
  destruct types as [|t ts]; [simpl; lia|].
  simpl List.length in H.
  match goal with |- context [if ?b then _ else _] => destruct b end; lia.
Qed.

Lemma merge_measure_props_filter (f : TypeDefinition -> bool) propName types :
  merge_measure EnterMergeTypes
    (defined (map (prop_of propName) (filter f types)))
  < merge_measure EnterMergeObject types.
Proof.
  pose proof (merge_measure_props propName (filter f types)).
  pose proof (total_size_filter f types).
  unfold merge_measure in *. lia.
Qed.

Lemma types_of_js_prop propName types :
  types_of (map (js_prop propName) types)
  = defined (map (prop_of propName) types).
Proof.
  induction types as [|t ts IH]; [reflexivity|].
  cbn [map]. unfold js_prop at 1, prop_of at 1.
  destruct (properties t) as [ps|]; [|exact IH].
  destruct (Obj.get propName ps); cbn [types_of defined];
    [rewrite IH; reflexivity|].
  destruct (str_mem propName objectPrototypeNames); exact IH.
Qed.

Lemma types_of_defined vs : types_of (filter is_defined vs) = types_of vs.
Proof.
  induction vs as [|[t| |] vs IH]; simpl; [reflexivity| | |];
    rewrite ?IH; reflexivity.
Qed.

Lemma merge_measure_required propName types :
  merge_measure EnterMergeTypes
    (types_of (filter is_defined (map (js_prop propName) types)))
  < merge_measure EnterMergeObject types.
Proof.
  rewrite types_of_defined, types_of_js_prop. apply merge_measure_props.
Qed.

Lemma merge_measure_optional propName types :
  merge_measure EnterMergeTypes
    (types_of (map (js_prop propName) (filter (appears propName) types)))
  < merge_measure EnterMergeObject types.
Proof.
  rewrite types_of_js_prop. apply merge_measure_props_filter.
Qed.

Lemma merge_measure_items types :
  2 <= List.length types ->
  merge_measure EnterMergeTypes (defined (map items types))
  < merge_measure EnterMergeTypes types.
Proof.
  intros Hlen. pose proof (total_size_items types) as H.
  unfold merge_measure.
  destruct (2 <=? List.length types) eqn:E;
    [|apply Nat.leb_gt in E; lia].
  match goal with |- context [if ?b then _ else _] => destruct b end; lia.
Qed.

Lemma merge_measure_enter types :
  2 <= List.length types ->
  merge_measure EnterMergeObject types < merge_measure EnterMergeTypes types.
Proof.
  intros Hlen. unfold merge_measure.
  destruct (2 <=? List.length types) eqn:E;
    [lia|apply Nat.leb_gt in E; lia].
Qed.

#[local] Opaque merge_measure.

(** The source also collects the optional names in a set [optionalFields],
    which it never reads.

    The candidates [propertyTypes] of a name are looked-up values.  When one
    of them is inherited from [Object.prototype] it has no [kind]; the name
    being an own key of some node, the list then has at least two members
    whose kinds differ, and [mergeTypes] returns [{kind: 'string'}].
    Otherwise all candidates are Type Nodes. *)
Equations? merge (w : merge_entry) (types : list TypeDefinition)
  : TypeDefinition by wf (merge_measure w types) lt :=
  merge EnterMergeObject types :=
    let '(mergedProperties, requiredFields) :=
      fold_left
        (fun (st : list (string * TypeDefinition) * list string) propName =>
           let '(mergedProperties, requiredFields) := st in
           let appearsInCount :=
             List.length (filter (appears propName) types) in
           if appearsInCount =? List.length types then
             let propertyTypes :=
               filter is_defined (map (js_prop propName) types) in
             (Obj.set propName
                      (if existsb is_inherited propertyTypes
                       then prim KString
                       else merge EnterMergeTypes (types_of propertyTypes))
                      mergedProperties,
              requiredFields ++ [propName])
           else
             let propertyTypes :=
               map (js_prop propName) (filter (appears propName) types) in
             if 0 <? List.length propertyTypes then
               (Obj.set propName
                        (if existsb is_inherited propertyTypes
                         then prim KString
                         else merge EnterMergeTypes (types_of propertyTypes))
                        mergedProperties,
                requiredFields)
             else st)
        (allPropertyNames types) ([], []) in
    object_of mergedProperties requiredFields;
  merge EnterMergeTypes [] := prim KNull;
  merge EnterMergeTypes [t] := t;
  merge EnterMergeTypes (t0 :: t1 :: rest) :=
    let types := t0 :: t1 :: rest in
    let firstKind := kind t0 in
    let allSameKind := forallb (fun t => kind_eqb (kind t) firstKind) types in
    if allSameKind then
      match firstKind, items t0 with
      | KArray, Some _ =>
          let itemTypes := defined (map items types) in
          let mergedItems := merge EnterMergeTypes itemTypes in
          array_of mergedItems
      | KObject, _ => merge EnterMergeObject types
      | _, _ => t0
      end
    else prim KString.
Proof.
  all: first [ apply merge_measure_required
             | apply merge_measure_optional
             | match goal with
               | |- _ < merge_measure _ ?l =>
                   apply (merge_measure_items l); simpl; lia
               end
             | apply merge_measure_enter; simpl; lia ].
Qed.

#[local] Transparent merge_measure.

(** The two source functions. *)
Definition mergeTypes (types : list TypeDefinition) : TypeDefinition :=
  merge EnterMergeTypes types.

Definition mergeObjectTypeDefinitions (types : list TypeDefinition)
  : TypeDefinition :=
  merge EnterMergeObject types.

(** [mergeTypes] on looked-up candidates. *)
Definition mergeCandidates (propertyTypes : list PropValue) : TypeDefinition :=
  if existsb is_inherited propertyTypes then prim KString
  else mergeTypes (types_of propertyTypes).

(** The body of [for (const propName of allPropertyNames)], with the
    recursive call named. *)
Definition mergeProperty (types : list TypeDefinition)
  (st : list (string * TypeDefinition) * list string) (propName : string)
  : list (string * TypeDefinition) * list string :=
  let '(mergedProperties, requiredFields) := st in
  let appearsInCount := List.length (filter (appears propName) types) in
  if appearsInCount =? List.length types then
    let propertyTypes := filter is_defined (map (js_prop propName) types) in
    (Obj.set propName (mergeCandidates propertyTypes) mergedProperties,
     requiredFields ++ [propName])
  else
    let propertyTypes :=
      map (js_prop propName) (filter (appears propName) types) in
    if 0 <? List.length propertyTypes then
      (Obj.set propName (mergeCandidates propertyTypes) mergedProperties,
       requiredFields)
    else st.

(** The merged type of a name: [mergeTypes] on its value in every node. *)
Definition mergedType (propName : string) (types : list TypeDefinition)
  : TypeDefinition :=
  mergeCandidates (map (js_prop propName) types).

(** ** [inferTypeFromExamples] *)

Definition inferTypeFromExamples (examples : list JSON) : TypeDefinition :=
  match examples with
  | [] => prim KNull
  | [example] => inferType example
  | _ =>
      let allTypes := map inferType examples in
      let allAreObjects :=
        forallb (fun t => kind_eqb (kind t) KObject) allTypes in
      if allAreObjects then
        mergeObjectTypeDefinitions
          (filter (fun t => kind_eqb (kind t) KObject) allTypes)
      else
        match find (fun t => negb (kind_eqb (kind t) KNull)) allTypes with
        | Some t => t
        | None => prim KNull
        end
  end.

(** The type selection of the CLI action ([cli.js]):
    [jsonExamples.length > 1 ? inferTypeFromExamples(jsonExamples)
                             : inferType(jsonExamples[0])].
    With no example [jsonExamples[0]] is [undefined], which [inferType] sends
    to its fallback. *)
Definition cliTypeDef (jsonExamples : list JSON) : TypeDefinition :=
  if 1 <? List.length jsonExamples then inferTypeFromExamples jsonExamples
  else match jsonExamples with
       | example :: _ => inferType example
       | [] => prim KString
       end.

(** ** String primitives used by the renderers *)

Definition nl : string := String (ascii_of_nat 10) EmptyString.
Definition dquote : string := String (ascii_of_nat 34) EmptyString.

(** [s.repeat(n)] *)
Fixpoint str_repeat (s : string) (n : nat) : string :=
  match n with
  | 0 => ""
  | S n' => s +++ str_repeat s n'
  end.

(** [s.includes(c)] for a one-character needle. *)
Fixpoint str_includes (c : ascii) (s : string) : bool :=
  match s with
  | EmptyString => false
  | String c' s' => if Ascii.eqb c c' then true else str_includes c s'
  end.

(** [s.split(c)] for a one-character separator. *)
Fixpoint str_split (c : ascii) (s : string) : list string :=
  match s with
  | EmptyString => [""]
  | String c' s' =>
      if Ascii.eqb c c' then "" :: str_split c s'
      else match str_split c s' with
           | [] => [String c' ""]
           | first :: others => String c' first :: others
           end
  end.

(** [xs.join(sep)] *)
Definition join (sep : string) (xs : list string) : string :=
  String.concat sep xs.

(** ** JSON Schema generator *)

Unset Elimination Schemes.

(** The JavaScript values the schema is built from. *)
Inductive JsValue : Type :=
| VString (s : string)
| VArray (elems : list JsValue)
| VObject (entries : list (string * JsValue)).

Set Elimination Schemes.

Fixpoint convertTypeToJsonSchema (typeDef : TypeDefinition)
  : list (string * JsValue) :=
  match typeDef with
  | TypeDef KString _ _ _ _ => [("type", VString "string")]
  | TypeDef KNumber _ _ _ _ => [("type", VString "number")]
  | TypeDef KBoolean _ _ _ _ => [("type", VString "boolean")]
  | TypeDef KNull _ _ _ _ => [("type", VString "null")]
  | TypeDef KArray _ its _ _ =>
      [("type", VString "array");
       ("items", VObject match its with
                         | Some i => convertTypeToJsonSchema i
                         | None => [("type", VString "string")]
                         end)]
  | TypeDef KObject ps _ req _ =>
      let required := match req with Some r => r | None => [] end in
      let properties :=
        match ps with
        | Some l =>
            fold_left
              (fun (properties : list (string * JsValue))
                   (entry : string * TypeDefinition) =>
                 Obj.set (fst entry)
                         (VObject (convertTypeToJsonSchema (snd entry)))
                         properties)
              l []
        | None => []
        end in
      let schema := [("type", VString "object")] in
      let schema :=
        if 0 <? List.length (Obj.keys properties)
        then Obj.set "properties" (VObject properties) schema else schema in
      let schema :=
        if 0 <? List.length required
        then Obj.set "required" (VArray (map VString required)) schema
        else schema in
      schema
  end.

(** [JSON.stringify]: string quoting. *)
Definition hex_digit (n : nat) : ascii :=
  nth n (list_ascii_of_string "0123456789abcdef") "0"%char.

Definition quote_char (c : ascii) : string :=
  let n := nat_of_ascii c in
  if n =? 34 then "\" +++ dquote
  else if n =? 92 then "\\"
  else if n =? 8 then "\b"
  else if n =? 9 then "\t"
  else if n =? 10 then "\n"
  else if n =? 12 then "\f"
  else if n =? 13 then "\r"
  else if n <? 32 then
    "\u00" +++ String (hex_digit (n / 16)) (String (hex_digit (n mod 16)) "")
  else String c "".

Fixpoint quote_body (s : string) : string :=
  match s with
  | EmptyString => ""
  | String c s' => quote_char c +++ quote_body s'
  end.

Definition quote (s : string) : string := dquote +++ quote_body s +++ dquote.

(** [JSON.stringify(value, null, 2)] at the current indentation. *)
Fixpoint stringify (indent : string) (value : JsValue) : string :=
  let stepback := indent in
  let indent := indent +++ "  " in
  match value with
  | VString s => quote s
  | VArray elems =>
      match elems with
      | [] => "[]"
      | _ =>
          "[" +++ nl +++ indent
          +++ join ("," +++ nl +++ indent) (map (stringify indent) elems)
          +++ nl +++ stepback +++ "]"
      end
  | VObject entries =>
      match entries with
      | [] => "{}"
      | _ =>
          "{" +++ nl +++ indent
          +++ join ("," +++ nl +++ indent)
                (map (fun kv : string * JsValue =>
                        quote (fst kv) +++ ": " +++ stringify indent (snd kv))
                     entries)
          +++ nl +++ stepback +++ "}"
      end
  end.

(** Object spread [{ ...base, ...extra }]. *)
Definition obj_spread {V : Type} (base extra : list (string * V))
  : list (string * V) :=
  fold_left (fun o kv => Obj.define (fst kv) (snd kv) o) extra base.

Definition generateJsonSchema (typeName : string) (typeDef : TypeDefinition)
  : string :=
  let schema :=
    obj_spread
      [("$schema", VString "http://json-schema.org/draft-07/schema#");
       ("$id", VString ("https://example.com/schemas/" +++ typeName +++ ".json"));
       ("title", VString typeName);
       ("description", VString ("Auto-generated schema for " +++ typeName))]
      (convertTypeToJsonSchema typeDef) in
  stringify "" (VObject schema).

(** ** TypeScript generator *)

(** One field line of an interface body. *)
Definition tsField (indentation : string) (requiredFields : list string)
  (key fieldType : string) : string :=
  let isOptional := negb (str_mem key requiredFields) in
  indentation +++ "  " +++ key +++ (if isOptional then "?" else "")
  +++ ": " +++ fieldType +++ ";".

Fixpoint convertTypeToTypeScript (typeDef : TypeDefinition) (indent : nat)
  : string :=
  let indentation := str_repeat "  " indent in
  match typeDef with
  | TypeDef KString _ _ _ _ => "string"
  | TypeDef KNumber _ _ _ _ => "number"
  | TypeDef KBoolean _ _ _ _ => "boolean"
  | TypeDef KNull _ _ _ _ => "null"
  | TypeDef KArray _ (Some i) _ _ =>
      let itemType := convertTypeToTypeScript i indent in
      if str_includes "|" itemType || str_includes "{" itemType
         || str_includes "[" itemType
      then "Array<" +++ itemType +++ ">"
      else itemType +++ "[]"
  | TypeDef KArray _ None _ _ => "any[]"
  | TypeDef KObject None _ _ _ => "Record<string, any>"
  | TypeDef KObject (Some []) _ _ _ => "Record<string, any>"
  | TypeDef KObject (Some ps) _ req _ =>
      let requiredFields := match req with Some r => r | None => [] end in
      let fields :=
        join nl
          (map (fun kv : string * TypeDefinition =>
                  tsField indentation requiredFields (fst kv)
                    (convertTypeToTypeScript (snd kv) (indent + 1)))
               ps) in
      "{" +++ nl +++ fields +++ nl +++ indentation +++ "}"
  end.

Definition generateTypeScript (typeName : string) (typeDef : TypeDefinition)
  : string :=
  "export interface " +++ typeName +++ " " +++ convertTypeToTypeScript typeDef 0.

(** ** Zod generator *)

(** One field line of a [z.object] body. *)
Definition zodField (indentation : string) (requiredFields : list string)
  (key fieldSchema : string) : string :=
  let isOptional := negb (str_mem key requiredFields) in
  if str_includes (ascii_of_nat 10) fieldSchema then
    let lines := str_split (ascii_of_nat 10) fieldSchema in
    let firstLine := hd "" lines in
    let restLines :=
      join nl (map (fun l => indentation +++ "    " +++ l) (tl lines)) in
    let baseSchema := firstLine +++ nl +++ restLines in
    if isOptional
    then indentation +++ "    " +++ key +++ ": " +++ baseSchema +++ ".optional(),"
    else indentation +++ "    " +++ key +++ ": " +++ baseSchema +++ ","
  else
    if isOptional
    then indentation +++ "    " +++ key +++ ": " +++ fieldSchema +++ ".optional(),"
    else indentation +++ "    " +++ key +++ ": " +++ fieldSchema +++ ",".

Fixpoint convertTypeToZod (typeDef : TypeDefinition) (indent : nat) : string :=
  let indentation := str_repeat "  " indent in
  match typeDef with
  | TypeDef KString _ _ _ _ => "z.string()"
  | TypeDef KNumber _ _ _ _ => "z.number()"
  | TypeDef KBoolean _ _ _ _ => "z.boolean()"
  | TypeDef KNull _ _ _ _ => "z.null()"
  | TypeDef KArray _ (Some i) _ _ =>
      let itemSchema := convertTypeToZod i indent in
      if str_includes (ascii_of_nat 10) itemSchema
      then "z.array(" +++ nl +++ indentation +++ "  " +++ itemSchema
           +++ nl +++ indentation +++ ")"
      else "z.array(" +++ itemSchema +++ ")"
  | TypeDef KArray _ None _ _ => "z.array(z.any())"
  | TypeDef KObject None _ _ _ => "z.record(z.any())"
  | TypeDef KObject (Some []) _ _ _ => "z.record(z.any())"
  | TypeDef KObject (Some ps) _ req _ =>
      let requiredFields := match req with Some r => r | None => [] end in
      let fields :=
        join nl
          (map (fun kv : string * TypeDefinition =>
                  zodField indentation requiredFields (fst kv)
                    (convertTypeToZod (snd kv) (indent + 2)))
               ps) in
      "z.object({" +++ nl +++ fields +++ nl +++ indentation +++ "})"
  end.

Definition generateZod (typeName : string) (typeDef : TypeDefinition) : string :=
  "export const " +++ typeName +++ "Schema = " +++ convertTypeToZod typeDef 0
  +++ ";" +++ nl +++ nl +++ "export type " +++ typeName
  +++ " = z.infer<typeof " +++ typeName +++ "Schema>;".

(** ** API documentation generator *)

Fixpoint getTypeDisplayName (typeDef : TypeDefinition) : string :=
  match typeDef with
  | TypeDef KString _ _ _ _ => "string"
  | TypeDef KNumber _ _ _ _ => "number"
  | TypeDef KBoolean _ _ _ _ => "boolean"
  | TypeDef KNull _ _ _ _ => "null"
  | TypeDef KArray _ (Some i) _ _ => getTypeDisplayName i +++ "[]"
  | TypeDef KArray _ None _ _ => "any[]"
  | TypeDef KObject None _ _ _ => "object"
  | TypeDef KObject (Some []) _ _ _ => "object"
  | TypeDef KObject (Some ps) _ _ _ =>
      let fields := join ", " (Obj.keys ps) in
      "{ " +++ fields +++ " }"
  end.

Definition getTypeDescription (typeDef : TypeDefinition) : string :=
  match description typeDef with
  | Some (String c d) => String c d
  | _ =>
      match kind typeDef with
      | KString => "A string value"
      | KNumber => "A numeric value"
      | KBoolean => "A boolean value (true/false)"
      | KNull => "A null value"
      | KArray => "An array of items"
      | KObject => "An object with properties"
      end
  end.

Fixpoint generateExample (typeDef : TypeDefinition) (indent : nat) : string :=
  let indentation := str_repeat "  " indent in
  match typeDef with
  | TypeDef KString _ _ _ _ => dquote +++ "example" +++ dquote
  | TypeDef KNumber _ _ _ _ => "123"
  | TypeDef KBoolean _ _ _ _ => "true"
  | TypeDef KNull _ _ _ _ => "null"
  | TypeDef KArray _ (Some i) _ _ =>
      let itemExample := generateExample i 0 in
      "[" +++ nl +++ indentation +++ "  " +++ itemExample
      +++ nl +++ indentation +++ "]"
  | TypeDef KArray _ None _ _ => "[]"
  | TypeDef KObject None _ _ _ => "{}"
  | TypeDef KObject (Some []) _ _ _ => "{}"
  | TypeDef KObject (Some ps) _ _ _ =>
      let fields :=
        join ("," +++ nl)
          (map (fun kv : string * TypeDefinition =>
                  let valueExample := generateExample (snd kv) (indent + 1) in
                  indentation +++ "  " +++ dquote +++ fst kv +++ dquote
                  +++ ": " +++ valueExample)
               ps) in
      "{" +++ nl +++ fields +++ nl +++ indentation +++ "}"
  end.

(** One row of the Schema table. *)
Definition docRow (requiredFields : list string) (key : string)
  (value : TypeDefinition) : string :=
  let typeStr := getTypeDisplayName value in
  let required := if str_mem key requiredFields then "Yes" else "No" in
  let description := getTypeDescription value in
  "| " +++ key +++ " | `" +++ typeStr +++ "` | " +++ required +++ " | "
  +++ description +++ " |".

(** The rows pushed between the table header and the example block. *)
Definition docRows (typeDef : TypeDefinition) : list string :=
  match kind typeDef, properties typeDef with
  | KObject, Some ps =>
      let requiredFields :=
        match required typeDef with Some r => r | None => [] end in
      map (fun kv : string * TypeDefinition =>
             docRow requiredFields (fst kv) (snd kv)) ps
  | _, _ =>
      let typeStr := getTypeDisplayName typeDef in
      ["| *value* | `" +++ typeStr +++ "` | Yes | "
       +++ getTypeDescription typeDef +++ " |"]
  end.

Definition generateApiDoc (typeName : string) (typeDef : TypeDefinition)
  : string :=
  let lines :=
    ["# " +++ typeName; ""; "## Schema"; "";
     "| Field | Type | Required | Description |";
     "|-------|------|----------|-------------|"]
    ++ docRows typeDef
    ++ [""; "## Example"; ""; "```json"; generateExample typeDef 0; "```"] in
  join nl lines.

(** ** Library facade ([index.ts]) and CLI outputs ([cli.js]) *)

Definition zodImport : string := "import { z } from 'zod';" +++ nl +++ nl.

Definition generateAll (json : JSON) (typeName : string)
  : list (string * string) :=
  let typeDef := inferType json in
  [("jsonSchema", generateJsonSchema typeName typeDef);
   ("typescript", generateTypeScript typeName typeDef);
   ("zod", zodImport +++ generateZod typeName typeDef);
   ("apiDoc", generateApiDoc typeName typeDef)].

Definition cliOutputs (jsonExamples : list JSON) (typeName : string)
  : list (string * string) :=
  let typeDef := cliTypeDef jsonExamples in
  [("json-schema", generateJsonSchema typeName typeDef);
   ("typescript", generateTypeScript typeName typeDef);
   ("zod", zodImport +++ generateZod typeName typeDef);
   ("api-doc", generateApiDoc typeName typeDef)].

(** ** Example values of the specification *)

Definition num (n : float) : JSON := JNumber n.

(** [{a:1,b:2}], [{a:1}] and [{a:"x"}]. *)
Definition example_a_b : JSON := JObject [("a", num 1); ("b", num 2)].
Definition example_a : JSON := JObject [("a", num 1)].
Definition example_a_str : JSON := JObject [("a", JString "x")].

(** An array node without [items], and one with. *)
Definition bare_array : TypeDefinition := prim KArray.
Definition string_array : TypeDefinition := array_of (prim KString).

Definition is_primitive (k : TypeKind) : bool :=
  match k with
  | KString | KNumber | KBoolean | KNull => true
  | KArray | KObject => false
  end.

(** [p] is a key of the [properties] map of [t]. *)
Definition occurs_in (p : string) (t : TypeDefinition) : Prop :=
  exists ps, properties t = Some ps /\ In p (Obj.keys ps).

Fixpoint str_nodup (l : list string) : bool :=
  match l with
  | [] => true
  | k :: r => negb (str_mem k r) && str_nodup r
  end.

(** [k] may be enumerated before [k']: an array-index key is only preceded
    by smaller array-index keys. *)
Definition may_precede (k k' : string) : bool :=
  match Obj.array_index k' with
  | Some m =>
      match Obj.array_index k with
      | Some n => (n <? m)%N
      | None => false
      end
  | None => true
  end.

(** A key list in the enumeration order of a JavaScript object: pairwise
    distinct, array-index keys first and ascending. *)
Fixpoint js_ordered (ks : list string) : bool :=
  match ks with
  | [] => true
  | k :: r =>
      negb (str_mem k r) && forallb (may_precede k) r && js_ordered r
  end.

(** A parsed JSON value: the entries of every object, at every depth, are in
    enumeration order. *)
Fixpoint json_wf (v : JSON) : bool :=
  match v with
  | JArray elems => forallb json_wf elems
  | JObject entries =>
      js_ordered (Obj.keys entries)
      && forallb (fun entry => json_wf (snd entry)) entries
  | _ => true
  end.

(** No object of the value, at any depth, has the key [__proto__]. *)
Fixpoint json_no_proto (v : JSON) : bool :=
  match v with
  | JArray elems => forallb json_no_proto elems
  | JObject entries =>
      negb (str_mem "__proto__" (Obj.keys entries))
      && forallb (fun entry => json_no_proto (snd entry)) entries
  | _ => true
  end.


(** The examples on which the lookups of the code go wrong:
    [{a:1, constructor:"x"}] with [{a:2}], [{a:"s", __proto__:1}] and
    [{__proto__:1}]. *)
Definition example_constructor : JSON :=
  JObject [("a", num 1); ("constructor", JString "x")].
Definition example_a2 : JSON := JObject [("a", num 2)].
Definition example_a_proto : JSON :=
  JObject [("a", JString "s"); ("__proto__", num 1)].
Definition example_proto : JSON := JObject [("__proto__", num 1)].

Definition opt_list {A : Type} (o : option (list A)) : list A :=
  match o with Some l => l | None => [] end.

(** The data-model invariant, at every node of the tree: the [required] list
    of an object node only names keys of its [properties]. *)
Fixpoint td_invariant (t : TypeDefinition) : bool :=
  match t with
  | TypeDef k ps it rq _ =>
      match k with
      | KObject =>
          forallb (fun p => str_mem p (Obj.keys (opt_list ps))) (opt_list rq)
      | _ => true
      end
      && match ps with
         | Some l => forallb (fun entry => td_invariant (snd entry)) l
         | None => true
         end
      && match it with
         | Some i => td_invariant i
         | None => true
         end
  end.

(** The [required] list read back from an emitted schema object. *)
Definition schemaRequired (schema : list (string * JsValue)) : list string :=
  match Obj.get "required" schema with
  | Some (VArray elems) =>
      defined (map (fun v => match v with
                             | VString name => Some name
                             | _ => None
                             end) elems)
  | _ => []
  end.


(** An object node whose [required] names a key its [properties] lack. *)
Definition dangling_required : TypeDefinition :=
  TypeDef KObject (Some [("a", prim KNumber)]) None (Some ["a"; "ghost"]) None.


(** The facade as the specification words it: inference dispatched on the
    number of examples, then the four renderers. *)
Definition generateAll_spec (examples : list JSON) (typeName : string)
  : list (string * string) :=
  let typeDef :=
    match examples with
    | [example] => inferType example
    | _ => inferTypeFromExamples examples
    end in
  [("jsonSchema", generateJsonSchema typeName typeDef);
   ("typescript", generateTypeScript typeName typeDef);
   ("zod", zodImport +++ generateZod typeName typeDef);
   ("apiDoc", generateApiDoc typeName typeDef)].

(** ** Further definitions: node shapes, renderer forms, the CLI action *)

(** The shape of the nodes the inference engine builds: a primitive node
    carries no field, an array node carries [items] only, an object node
    carries [properties] (with pairwise distinct keys) and [required] only;
    no node carries a [description]. *)
Fixpoint td_shape (t : TypeDefinition) : bool :=
  match t with
  | TypeDef k ps it rq d =>
      match d with None => true | Some _ => false end
      && match k, ps, it, rq with
         | KArray, None, Some i, None => td_shape i
         | KObject, Some l, None, Some _ =>
             str_nodup (Obj.keys l)
             && forallb (fun entry => td_shape (snd entry)) l
         | (KString | KNumber | KBoolean | KNull), None, None, None => true
         | _, _, _, _ => false
         end
  end.

(** The keys of a JSON value that is an object. *)
Definition json_keys (v : JSON) : option (list string) :=
  match v with
  | JObject entries => Some (Obj.keys entries)
  | _ => None
  end.

Definition is_json_object (v : JSON) : bool :=
  match v with JObject _ => true | _ => false end.

(** The [type] keyword of a kind. *)
Definition kind_name (k : TypeKind) : string :=
  match k with
  | KString => "string"
  | KNumber => "number"
  | KBoolean => "boolean"
  | KArray => "array"
  | KObject => "object"
  | KNull => "null"
  end.

(** The literal part of the schema object of [generateJsonSchema]. *)
Definition schemaHeader (typeName : string) : list (string * JsValue) :=
  [("$schema", VString "http://json-schema.org/draft-07/schema#");
   ("$id", VString ("https://example.com/schemas/" +++ typeName +++ ".json"));
   ("title", VString typeName);
   ("description", VString ("Auto-generated schema for " +++ typeName))].

(** The test of the typed-interface renderer on an element type. *)
Definition tsNeedsWrap (itemType : string) : bool :=
  str_includes "|" itemType || str_includes "{" itemType
  || str_includes "[" itemType.

(** Element nodes the typed-interface renderer writes in the suffix form
    [T[]]: primitives and objects without properties. *)
Definition ts_bare_item (i : TypeDefinition) : bool :=
  match kind i, properties i with
  | KArray, _ => false
  | KObject, Some (_ :: _) => false
  | _, _ => true
  end.

(** Nodes with an object with properties at the end of their chain of
    [items]. *)
Fixpoint has_fields (t : TypeDefinition) : bool :=
  match t with
  | TypeDef KObject (Some (_ :: _)) _ _ _ => true
  | TypeDef KArray _ (Some i) _ _ => has_fields i
  | _ => false
  end.

(** The format tables of the CLI ([cli.js]). *)
Definition ALL_FORMATS : list string :=
  ["json-schema"; "typescript"; "zod"; "api-doc"].

Definition FORMAT_EXTENSIONS : list (string * string) :=
  [("json-schema", ".schema.json");
   ("typescript", ".ts");
   ("zod", ".zod.ts");
   ("api-doc", ".md")].

(** [formats.filter(f => !ALL_FORMATS.includes(f))] *)
Definition invalidFormats (formats : list string) : list string :=
  filter (fun f => negb (str_mem f ALL_FORMATS)) formats.

(** A possibly-undefined value inside a template literal. *)
Definition interpolate (o : option string) : string :=
  match o with Some s => s | None => "undefined" end.

(** [`${typeName}${FORMAT_EXTENSIONS[format]}`] *)
Definition outputFilename (typeName format : string) : string :=
  typeName +++ interpolate (Obj.get format FORMAT_EXTENSIONS).

(** What the action leaves behind: the files written, as file name (relative
    to the output directory) and content, in the order of the writes, and the
    exit code of the process. *)
Record ActionResult : Type :=
  { written : list (string * string); exitCode : nat }.

(** The loop [for (const format of formats)] of the action.  [writeOk] tells
    whether [fs.writeFileSync] succeeds, given the files written so far and
    the file name; an exception ends the action in its [catch], with
    [process.exit(1)]. *)
Fixpoint writeLoop (writeOk : list (string * string) -> string -> bool)
  (typeName : string) (outputs : list (string * string))
  (formats : list string) (done : list (string * string)) : ActionResult :=
  match formats with
  | [] => {| written := done; exitCode := 0 |}
  | format :: rest =>
      let filename := outputFilename typeName format in
      match Obj.get format outputs with
      | Some content =>
          if writeOk done filename
          then writeLoop writeOk typeName outputs rest
                         (done ++ [(filename, content)])
          else {| written := done; exitCode := 1 |}
      | None => {| written := done; exitCode := 1 |}
      end
  end.

(** The action of the CLI from the validation of the formats on, for the
    parsed examples and the list [formats] of requested formats (split and
    trimmed, or [ALL_FORMATS]).  [write] is [options.write]; [dirOk] tells
    whether the output directory exists or [fs.mkdirSync] succeeds. *)
Definition cliAction (dirOk : bool)
  (writeOk : list (string * string) -> string -> bool) (write : bool)
  (jsonExamples : list JSON) (formats : list string) (typeName : string)
  : ActionResult :=
  if 0 <? List.length (invalidFormats formats)
  then {| written := []; exitCode := 1 |}
  else
    let outputs := cliOutputs jsonExamples typeName in
    if write then
      if dirOk then writeLoop writeOk typeName outputs formats []
      else {| written := []; exitCode := 1 |}
    else {| written := []; exitCode := 0 |}.

(** A nested example with an array-index key, an inherited name as a key,
    an empty array and an array of objects. *)
Definition nested_example : JSON :=
  JObject [("7", JNull);
           ("user", JObject [("name", JString "John"); ("tags", JArray [])]);
           ("constructor", JBool true);
           ("scores", JArray [JObject [("n", num 1)]; JNull])].

(** No [properties] of the node, at any depth, has an own key [__proto__]. *)
Fixpoint td_no_proto (t : TypeDefinition) : bool :=
  match t with
  | TypeDef _ ps it _ _ =>
      match ps with
      | Some l =>
          negb (str_mem "__proto__" (Obj.keys l))
          && forallb (fun entry => td_no_proto (snd entry)) l
      | None => true
      end
      && match it with
         | Some i => td_no_proto i
         | None => true
         end
  end.

(** * Properties *)

(** ** Induction principle for JSON values *)

Section JSON_induction.
Variable P : JSON -> Prop.
Hypothesis Hnull : P JNull.
Hypothesis Hstring : forall s, P (JString s).
Hypothesis Hnumber : forall n, P (JNumber n).
Hypothesis Hbool : forall b, P (JBool b).
Hypothesis Harray : forall elems, Forall P elems -> P (JArray elems).
Hypothesis Hobject :
  forall entries, Forall (fun kv => P (snd kv)) entries -> P (JObject entries).

Fixpoint JSON_ind (v : JSON) : P v :=
  match v with
  | JNull => Hnull
  | JString s => Hstring s
  | JNumber n => Hnumber n
  | JBool b => Hbool b
  | JArray elems =>
      Harray elems
        ((fix all (l : list JSON) : Forall P l :=
            match l with
            | [] => Forall_nil _
            | x :: r => Forall_cons _ (JSON_ind x) (all r)
            end) elems)
  | JObject entries =>
      Hobject entries
        ((fix all (l : list (string * JSON))
            : Forall (fun kv => P (snd kv)) l :=
            match l with
            | [] => Forall_nil _
            | kv :: r => Forall_cons _ (JSON_ind (snd kv)) (all r)
            end) entries)
  end.
End JSON_induction.

(** ** Records, sets and lists *)

Lemma str_mem_In k s : str_mem k s = true <-> In k s.
Proof.
  induction s as [|k' s IH]; simpl; [split; [discriminate|tauto]|].
  destruct (String.eqb_spec k k') as [->|Hne].
  - split; auto.
  - rewrite IH. split; [auto|intros [E|H]; [congruence|exact H]].
Qed.

Module ObjFacts.
Section Facts.
Context {V : Type}.
Implicit Types (o : list (string * V)) (k : string) (v : V).

Lemma get_Some_In k v o : Obj.get k o = Some v -> In (k, v) o.
Proof.
  induction o as [|[k' v'] o IH]; simpl; [discriminate|].
  destruct (String.eqb_spec k k') as [->|Hne].
  - intros [= ->]. auto.
  - auto.
Qed.

Lemma get_None_keys k o : Obj.get k o = None <-> ~ In k (Obj.keys o).
Proof.
  induction o as [|[k' v'] o IH]; simpl; [tauto|].
  destruct (String.eqb_spec k k') as [->|Hne].
  - split; [discriminate|]. intros H. exfalso. apply H. auto.
  - rewrite IH. split; [intros H [E|H']; [congruence|auto]|auto].
Qed.

Lemma has_keys k o : Obj.has k o = true <-> In k (Obj.keys o).
Proof.
  unfold Obj.has. destruct (Obj.get k o) eqn:E.
  - split; [|reflexivity]. intros _.
    apply get_Some_In in E. apply (in_map fst) in E. exact E.
  - apply get_None_keys in E. split; [discriminate|tauto].
Qed.

Lemma has_false_keys k o : Obj.has k o = false <-> ~ In k (Obj.keys o).
Proof.
  rewrite <- has_keys. destruct (Obj.has k o); split; congruence.
Qed.

Lemma get_In_NoDup k v o :
  NoDup (Obj.keys o) -> In (k, v) o -> Obj.get k o = Some v.
Proof.
  induction o as [|[k' v'] o IH]; simpl; [tauto|].
  intros Hnd [E|Hin]; inversion Hnd as [|? ? Hnotin Hnd']; subst.
  - inversion E; subst. rewrite String.eqb_refl. reflexivity.
  - destruct (String.eqb_spec k k') as [->|Hne]; [|auto].
    exfalso. apply Hnotin. apply (in_map fst) in Hin. exact Hin.
Qed.


(** Overwriting. *)
Lemma keys_replace k v o : Obj.keys (Obj.replace k v o) = Obj.keys o.
Proof.
  induction o as [|[k0 v0] o IH]; simpl; [reflexivity|].
  destruct (String.eqb k k0); simpl; [reflexivity|].
  f_equal. exact IH.
Qed.


Lemma In_replace k v o k' x :
  In (k', x) (Obj.replace k v o) -> In (k', x) o \/ x = v.
Proof.
  induction o as [|[k0 v0] o IH]; simpl; [tauto|].
  destruct (String.eqb k k0); simpl.
  - intros [[= _ <-]|H]; auto.
  - intros [H|H]; [auto|]. apply IH in H. tauto.
Qed.

(** Inserting an array-index key. *)
Lemma keys_insert_index n k v o k' :
  In k' (Obj.keys (Obj.insert_index n k v o))
  <-> k' = k \/ In k' (Obj.keys o).
Proof.
  induction o as [|[k0 v0] o IH]; simpl; [intuition congruence|].
  destruct (Obj.array_index k0) as [m|]; [destruct (m <? n)%N|]; simpl;
    intuition congruence.
Qed.



Lemma In_insert_index n k v o k' x :
  In (k', x) (Obj.insert_index n k v o) -> In (k', x) o \/ x = v.
Proof.
  induction o as [|[k0 v0] o IH]; simpl.
  - intros [[= _ <-]|[]]. auto.
  - destruct (Obj.array_index k0) as [m|]; [destruct (m <? n)%N|]; simpl;
      try solve [intros [[= _ <-]|H]; auto].
    intros [H|H]; [auto|]. apply IH in H. tauto.
Qed.

Lemma insert_index_last n k v o :
  (forall k', In k' (Obj.keys o) ->
              exists m, Obj.array_index k' = Some m /\ (m <? n)%N = true) ->
  Obj.insert_index n k v o = o ++ [(k, v)].
Proof.
  induction o as [|[k0 v0] o IH]; simpl; intros H; [reflexivity|].
  destruct (H k0 (or_introl eq_refl)) as (m & -> & ->).
  rewrite IH; [reflexivity|]. intros k' Hk'. apply H. auto.
Qed.

(** Creating or overwriting an own property. *)
Lemma keys_define k v o k' :
  In k' (Obj.keys (Obj.define k v o)) <-> k' = k \/ In k' (Obj.keys o).
Proof.
  unfold Obj.define. destruct (Obj.has k o) eqn:E.
  - apply has_keys in E. rewrite keys_replace.
    split; [auto|intros [->|H]; auto].
  - destruct (Obj.array_index k) as [n|].
    + apply keys_insert_index.
    + unfold Obj.keys. rewrite map_app, in_app_iff. simpl.
      intuition congruence.
Qed.



Lemma In_define k v o k' x :
  In (k', x) (Obj.define k v o) -> In (k', x) o \/ x = v.
Proof.
  unfold Obj.define. destruct (Obj.has k o).
  - apply In_replace.
  - destruct (Obj.array_index k) as [n|].
    + apply In_insert_index.
    + rewrite in_app_iff. simpl. intros [H|[[= _ <-]|[]]]; auto.
Qed.

Lemma define_last k v o :
  ~ In k (Obj.keys o) ->
  (forall k', In k' (Obj.keys o) -> may_precede k' k = true) ->
  Obj.define k v o = o ++ [(k, v)].
Proof.
  intros Hnotin Hord. unfold Obj.define.
  apply has_false_keys in Hnotin. rewrite Hnotin.
  destruct (Obj.array_index k) as [n|] eqn:En; [|reflexivity].
  apply insert_index_last. intros k' Hk'.
  specialize (Hord k' Hk'). unfold may_precede in Hord. rewrite En in Hord.
  destruct (Obj.array_index k') as [m|]; [eauto|discriminate].
Qed.

(** Assignment. *)
Lemma set_define k v o :
  k <> "__proto__" -> Obj.set k v o = Obj.define k v o.
Proof.
  intros Hne. unfold Obj.set.
  destruct (String.eqb_spec k "__proto__"); [congruence|reflexivity].
Qed.

Lemma keys_set k v o k' :
  In k' (Obj.keys (Obj.set k v o))
  <-> In k' (Obj.keys o) \/ (k' = k /\ k <> "__proto__").
Proof.
  unfold Obj.set. destruct (String.eqb_spec k "__proto__") as [->|Hne];
    simpl.
  - destruct (Obj.has "__proto__" o) eqn:E; simpl.
    + rewrite keys_define. apply has_keys in E.
      split; [intros [->|H]; auto|intros [H|[_ H]]; [auto|congruence]].
    + tauto.
  - rewrite keys_define. tauto.
Qed.




Lemma In_set k v o k' x :
  In (k', x) (Obj.set k v o) -> In (k', x) o \/ x = v.
Proof.
  unfold Obj.set. destruct (_ && _); [auto|apply In_define].
Qed.

Lemma set_last k v o :
  k <> "__proto__" ->
  ~ In k (Obj.keys o) ->
  (forall k', In k' (Obj.keys o) -> may_precede k' k = true) ->
  Obj.set k v o = o ++ [(k, v)].
Proof.
  intros Hne Hnotin Hord. rewrite set_define by exact Hne.
  apply define_last; assumption.
Qed.

Lemma keys_map_keys (f : string -> V) (names : list string) :
  Obj.keys (map (fun p => (p, f p)) names) = names.
Proof.
  unfold Obj.keys. rewrite map_map. simpl. apply map_id.
Qed.
End Facts.
End ObjFacts.

Lemma set_add_In k s k' : In k' (set_add k s) <-> k' = k \/ In k' s.
Proof.
  induction s as [|k0 s IH]; simpl; [intuition congruence|].
  destruct (String.eqb_spec k k0) as [->|Hne]; simpl.
  - intuition congruence.
  - rewrite IH. tauto.
Qed.


Lemma set_add_fresh k s : ~ In k s -> set_add k s = s ++ [k].
Proof.
  induction s as [|k0 s IH]; simpl; [reflexivity|].
  intros H. destruct (String.eqb_spec k k0) as [->|Hne]; [tauto|].
  rewrite IH; [reflexivity|tauto].
Qed.

Lemma set_add_present k s : In k s -> set_add k s = s.
Proof.
  induction s as [|k0 s IH]; simpl; [tauto|].
  destruct (String.eqb_spec k k0) as [->|Hne]; [reflexivity|].
  intros [E|H]; [congruence|]. rewrite IH; auto.
Qed.

Lemma defined_In {A : Type} (xs : list (option A)) x :
  In x (defined xs) <-> In (Some x) xs.
Proof.
  induction xs as [|[y|] xs IH]; simpl; [tauto| |].
  - rewrite IH. intuition congruence.
  - rewrite IH. intuition congruence.
Qed.

(** ** The property-name set of [mergeObjectTypeDefinitions] *)

Lemma has_prop_keys p t :
  has_prop p t = true <->
  exists ps, properties t = Some ps /\ In p (Obj.keys ps).
Proof.
  unfold has_prop, prop_of. destruct (properties t) as [ps|].
  - pose proof (ObjFacts.has_keys p ps) as Hk. unfold Obj.has in Hk.
    rewrite Hk. split; [eauto|]. intros (ps' & [= <-] & H). exact H.
  - split; [discriminate|]. intros (ps' & E & _). discriminate.
Qed.

Lemma add_keys_In (ks names : list string) p :
  In p (fold_left (fun s key => set_add key s) ks names)
  <-> In p names \/ In p ks.
Proof.
  revert names. induction ks as [|k ks IH]; simpl; intros names; [tauto|].
  rewrite IH, set_add_In. intuition congruence.
Qed.


Lemma add_keys_fresh (ks : list string) :
  NoDup ks -> fold_left (fun s key => set_add key s) ks [] = ks.
Proof.
  intros Hnd.
  enough (G : forall names,
             NoDup (names ++ ks) ->
             fold_left (fun s key => set_add key s) ks names = names ++ ks).
  { apply (G []). exact Hnd. }
  clear Hnd. induction ks as [|k ks IH]; simpl; intros names Hnd.
  - rewrite app_nil_r. reflexivity.
  - apply NoDup_remove in Hnd as Hrm. destruct Hrm as [_ Hnotin].
    rewrite set_add_fresh by (intros H; apply Hnotin, in_or_app; auto).
    rewrite IH; rewrite <- app_assoc; [reflexivity|exact Hnd].
Qed.

Lemma add_keys_absorbed (ks names : list string) :
  (forall k, In k ks -> In k names) ->
  fold_left (fun s key => set_add key s) ks names = names.
Proof.
  induction ks as [|k ks IH]; simpl; intros H; [reflexivity|].
  rewrite set_add_present by auto. apply IH. auto.
Qed.

Lemma allPropertyNames_fold types :
  allPropertyNames types = fold_left add_type_names types [].
Proof. reflexivity. Qed.

Lemma fold_names_In types names p :
  In p (fold_left add_type_names types names)
  <-> In p names \/ exists t, In t types /\ has_prop p t = true.
Proof.
  revert names. induction types as [|t ts IH]; simpl; intros names.
  - split; [auto|]. intros [H|(t & [] & _)]. exact H.
  - rewrite IH. unfold add_type_names.
    split.
    + intros [H|(t' & Hin & Hp)]; [|eauto].
      destruct (properties t) as [ps|] eqn:E; [|auto].
      apply add_keys_In in H. destruct H as [H|H]; [auto|].
      right. exists t. split; [auto|]. apply has_prop_keys. eauto.
    + intros [H|(t' & [<-|Hin] & Hp)].
      * left. destruct (properties t); [apply add_keys_In|]; auto.
      * left. apply has_prop_keys in Hp. destruct Hp as (ps & -> & Hp).
        apply add_keys_In. auto.
      * eauto.
Qed.


Lemma allPropertyNames_In types p :
  In p (allPropertyNames types)
  <-> exists t, In t types /\ has_prop p t = true.
Proof.
  rewrite allPropertyNames_fold, fold_names_In. simpl. tauto.
Qed.


(** ** Candidate lists *)

Lemma filter_length_all {A : Type} (f : A -> bool) (l : list A) :
  (List.length (filter f l) =? List.length l) = forallb f l.
Proof.
  assert (Hle : forall l', List.length (filter f l') <= List.length l').
  { induction l' as [|y l' IH]; simpl; [lia|]. destruct (f y); simpl; lia. }
  induction l as [|x l IH]; simpl; [reflexivity|].
  destruct (f x); simpl; [exact IH|].
  apply Nat.eqb_neq. specialize (Hle l). lia.
Qed.

Lemma js_prop_own p t :
  js_prop p t
  = match prop_of p t with
    | Some x => PType x
    | None =>
        match properties t with
        | Some _ =>
            if str_mem p objectPrototypeNames then PInherited else PUndefined
        | None => PUndefined
        end
    end.
Proof.
  unfold js_prop, prop_of. destruct (properties t) as [ps|]; [|reflexivity].
  destruct (Obj.get p ps); reflexivity.
Qed.

Lemma appears_own p t : has_prop p t = true -> appears p t = true.
Proof.
  unfold appears, has_prop. rewrite js_prop_own.
  destruct (prop_of p t); [reflexivity|discriminate].
Qed.

Lemma appears_spec p t :
  appears p t = true
  <-> has_prop p t = true
      \/ (properties t <> None /\ In p objectPrototypeNames).
Proof.
  unfold appears, has_prop. rewrite js_prop_own.
  destruct (prop_of p t) as [x|] eqn:E; cbn [truthy];
    [split; [intros _; left; reflexivity|reflexivity]|].
  destruct (properties t) as [ps|].
  - destruct (str_mem p objectPrototypeNames) eqn:Em; cbn [truthy].
    + apply str_mem_In in Em.
      split; [intros _; right; split; [discriminate|exact Em]|reflexivity].
    + split; [discriminate|]. intros [H|[_ H]]; [discriminate|].
      apply str_mem_In in H. congruence.
  - cbn [truthy]. split; [discriminate|].
    intros [H|[H _]]; [discriminate|congruence].
Qed.

Lemma appears_not_inherited p t :
  ~ In p objectPrototypeNames -> appears p t = has_prop p t.
Proof.
  intros Hp. unfold appears, has_prop. rewrite js_prop_own.
  destruct (prop_of p t); [reflexivity|].
  destruct (properties t); [|reflexivity].
  destruct (str_mem p objectPrototypeNames) eqn:E; [|reflexivity].
  apply str_mem_In in E. tauto.
Qed.

Lemma mergeCandidates_defined vs :
  mergeCandidates (filter is_defined vs) = mergeCandidates vs.
Proof.
  unfold mergeCandidates. rewrite types_of_defined.
  replace (existsb is_inherited (filter is_defined vs))
    with (existsb is_inherited vs); [reflexivity|].
  induction vs as [|[t| |] vs IH]; simpl; [reflexivity| | |];
    rewrite ?IH; reflexivity.
Qed.

Lemma mergeCandidates_appearing p types :
  mergeCandidates (map (js_prop p) (filter (appears p) types))
  = mergedType p types.
Proof.
  unfold mergedType, mergeCandidates.
  assert (H : existsb is_inherited (map (js_prop p) (filter (appears p) types))
              = existsb is_inherited (map (js_prop p) types)
              /\ types_of (map (js_prop p) (filter (appears p) types))
                 = types_of (map (js_prop p) types)).
  { induction types as [|t ts [IH1 IH2]]; [split; reflexivity|].
    cbn [filter]. destruct (appears p t) eqn:Ea.
    - cbn [map existsb]. rewrite IH1. split; [reflexivity|].
      destruct (js_prop p t); cbn [types_of]; rewrite IH2; reflexivity.
    - unfold appears in Ea. cbn [map].
      destruct (js_prop p t); try discriminate Ea.
      cbn [existsb is_inherited orb types_of]. split; assumption. }
  destruct H as [-> ->]. reflexivity.
Qed.

Lemma appearing_nonempty p types :
  (exists t, In t types /\ appears p t = true) ->
  (0 <? List.length (map (js_prop p) (filter (appears p) types))) = true.
Proof.
  intros (t & Hin & Hp). apply Nat.ltb_lt. rewrite length_map.
  assert (Hx : In t (filter (appears p) types)) by (apply filter_In; auto).
  destruct (filter (appears p) types); simpl; [destruct Hx|lia].
Qed.

(** ** Unfolding equations of the two merge functions, as in the source *)

Lemma mergeObjectTypeDefinitions_eq types :
  mergeObjectTypeDefinitions types =
  let '(mergedProperties, requiredFields) :=
    fold_left (mergeProperty types) (allPropertyNames types) ([], []) in
  object_of mergedProperties requiredFields.
Proof. unfold mergeObjectTypeDefinitions. rewrite merge_equation_4. reflexivity. Qed.

Lemma mergeTypes_nil : mergeTypes [] = prim KNull.
Proof. unfold mergeTypes. apply merge_equation_1. Qed.

Lemma mergeTypes_one t : mergeTypes [t] = t.
Proof. unfold mergeTypes. apply merge_equation_2. Qed.

Lemma mergeTypes_many t0 t1 rest :
  mergeTypes (t0 :: t1 :: rest) =
  let types := t0 :: t1 :: rest in
  if forallb (fun t => kind_eqb (kind t) (kind t0)) types then
    match kind t0, items t0 with
    | KArray, Some _ => array_of (mergeTypes (defined (map items types)))
    | KObject, _ => mergeObjectTypeDefinitions types
    | _, _ => t0
    end
  else prim KString.
Proof.
  unfold mergeTypes, mergeObjectTypeDefinitions. rewrite merge_equation_3.
  reflexivity.
Qed.

Lemma mergeProperty_step types props req p :
  (exists t, In t types /\ appears p t = true) ->
  mergeProperty types (props, req) p
  = (Obj.set p (mergedType p types) props,
     req ++ (if forallb (appears p) types then [p] else [])).
Proof.
  intros Hsome. unfold mergeProperty.
  rewrite filter_length_all, mergeCandidates_defined,
    mergeCandidates_appearing, (appearing_nonempty p types Hsome).
  fold (mergedType p types).
  destruct (forallb (appears p) types); [|rewrite app_nil_r]; reflexivity.
Qed.

Lemma mergeProperty_fold types names props req :
  (forall p, In p names -> exists t, In t types /\ appears p t = true) ->
  fold_left (mergeProperty types) names (props, req) =
  (fold_left (fun o p => Obj.set p (mergedType p types) o) names props,
   req ++ filter (fun p => forallb (appears p) types) names).
Proof.
  revert props req.
  induction names as [|n names IH]; intros props req Hsome.
  - simpl. rewrite app_nil_r. reflexivity.
  - cbn [fold_left filter].
    rewrite mergeProperty_step by (apply Hsome; left; reflexivity).
    rewrite IH by (intros p Hp; apply Hsome; right; exact Hp).
    rewrite <- app_assoc.
    destruct (forallb (appears n) types); reflexivity.
Qed.

(** Closed form of the second loop: every collected name is assigned its
    merged type, and the names every node answers for are the required
    ones. *)
Lemma mergeObjectTypeDefinitions_closed types :
  mergeObjectTypeDefinitions types =
  object_of
    (fold_left (fun o p => Obj.set p (mergedType p types) o)
               (allPropertyNames types) [])
    (filter (fun p => forallb (appears p) types) (allPropertyNames types)).
Proof.
  rewrite mergeObjectTypeDefinitions_eq, mergeProperty_fold.
  - reflexivity.
  - intros p Hp. apply allPropertyNames_In in Hp.
    destruct Hp as (t & Ht & Hp). exists t. split; [exact Ht|].
    apply appears_own, Hp.
Qed.

(** ** Assignment loops *)

Lemma js_ordered_NoDup ks : js_ordered ks = true -> NoDup ks.
Proof.
  induction ks as [|k r IH]; simpl; [constructor|].
  rewrite !andb_true_iff, negb_true_iff. intros [[Hk _] Hr].
  constructor; [|auto]. rewrite <- str_mem_In. congruence.
Qed.

Lemma js_ordered_app_head a k b :
  js_ordered (a ++ k :: b) = true ->
  ~ In k a /\ (forall k', In k' a -> may_precede k' k = true).
Proof.
  induction a as [|x a IH]; simpl; [tauto|].
  rewrite !andb_true_iff, negb_true_iff. intros [[Hx Hall] Hr].
  destruct (IH Hr) as [Hnotin Hprec]. split.
  - intros [->|H]; [|tauto].
    assert (Hin : In k (a ++ k :: b)) by (apply in_or_app; simpl; auto).
    apply str_mem_In in Hin. congruence.
  - intros k' [<-|Hk']; [|auto].
    rewrite forallb_forall in Hall. apply Hall, in_or_app. simpl. auto.
Qed.

Section Assign.
Context {A V : Type} (f : A -> V).

Let assign (props : list (string * V)) (entry : string * A) :=
  Obj.set (fst entry) (f (snd entry)) props.

Lemma assign_fold_keys es acc k :
  In k (Obj.keys (fold_left assign es acc))
  <-> In k (Obj.keys acc) \/ (In k (Obj.keys es) /\ k <> "__proto__").
Proof.
  revert acc. induction es as [|e es IH]; simpl; intros acc; [tauto|].
  rewrite IH. unfold assign. rewrite ObjFacts.keys_set.
  intuition congruence.
Qed.

Lemma assign_fold_values es acc k v :
  In (k, v) (fold_left assign es acc) ->
  In (k, v) acc \/ exists e, In e es /\ v = f (snd e).
Proof.
  revert acc. induction es as [|e es IH]; simpl; intros acc; [auto|].
  intros H. apply IH in H. destruct H as [H|(e' & He & ->)]; [|eauto].
  unfold assign in H. apply ObjFacts.In_set in H.
  destruct H as [H| ->]; [auto|eauto].
Qed.



Lemma assign_fold_ordered es acc :
  js_ordered (Obj.keys acc ++ Obj.keys es) = true ->
  ~ In "__proto__" (Obj.keys es) ->
  fold_left assign es acc = acc ++ map (fun e => (fst e, f (snd e))) es.
Proof.
  revert acc. induction es as [|e es IH]; simpl; intros acc Hord Hproto.
  - rewrite app_nil_r. reflexivity.
  - destruct (js_ordered_app_head _ _ _ Hord) as [Hnotin Hprec].
    change (assign acc e) with (Obj.set (fst e) (f (snd e)) acc).
    rewrite ObjFacts.set_last; [|intros E; apply Hproto; auto|exact Hnotin
                               |exact Hprec].
    rewrite IH.
    + rewrite <- app_assoc. reflexivity.
    + unfold Obj.keys. rewrite map_app. simpl.
      rewrite <- app_assoc. exact Hord.
    + tauto.
Qed.
End Assign.

Lemma names_fold_entries {V : Type} (f : string -> V) names acc :
  fold_left (fun o p => Obj.set p (f p) o) names acc
  = fold_left (fun o (e : string * string) => Obj.set (fst e) (f (snd e)) o)
              (map (fun p => (p, p)) names) acc.
Proof.
  revert acc. induction names as [|n names IH]; simpl; intros acc;
    [reflexivity|apply IH].
Qed.

Lemma keys_pairs names :
  Obj.keys (map (fun p : string => (p, p)) names) = names.
Proof. unfold Obj.keys. rewrite map_map. apply map_id. Qed.

Lemma names_fold_keys {V : Type} (f : string -> V) names acc k :
  In k (Obj.keys (fold_left (fun o p => Obj.set p (f p) o) names acc))
  <-> In k (Obj.keys acc) \/ (In k names /\ k <> "__proto__").
Proof.
  rewrite names_fold_entries, (assign_fold_keys f), keys_pairs. tauto.
Qed.

Lemma names_fold_values {V : Type} (f : string -> V) names acc k v :
  In (k, v) (fold_left (fun o p => Obj.set p (f p) o) names acc) ->
  In (k, v) acc \/ exists p, In p names /\ v = f p.
Proof.
  rewrite names_fold_entries. intros H.
  apply (assign_fold_values f) in H. destruct H as [H|(e & He & ->)]; [auto|].
  right. apply in_map_iff in He. destruct He as (p & <- & Hp). eauto.
Qed.



Lemma names_fold_ordered {V : Type} (f : string -> V) names :
  js_ordered names = true ->
  ~ In "__proto__" names ->
  fold_left (fun o p => Obj.set p (f p) o) names []
  = map (fun p => (p, f p)) names.
Proof.
  intros Hord Hproto.
  rewrite names_fold_entries, (assign_fold_ordered f).
  - simpl. rewrite map_map. reflexivity.
  - simpl. rewrite keys_pairs. exact Hord.
  - rewrite keys_pairs. exact Hproto.
Qed.


Lemma filter_all {A : Type} (f : A -> bool) (l : list A) :
  (forall x, In x l -> f x = true) -> filter f l = l.
Proof.
  induction l as [|x l IH]; simpl; intros H; [reflexivity|].
  rewrite (H x) by auto. rewrite IH by auto. reflexivity.
Qed.

(** ** Single-value inference on arrays *)

(** C5: on a JSON array, [inferType] returns [{kind: array, items: {kind:
    string}}] when the array is empty and [{kind: array, items: infer(first
    element)}] otherwise; two arrays with the same first element infer to the
    same node, whatever follows the first element. *)
Theorem inferType_array_first_element_only :
  inferType (JArray []) = array_of (prim KString)
  /\ (forall firstItem rest,
        inferType (JArray (firstItem :: rest))
        = array_of (inferType firstItem))
  /\ (forall firstItem rest rest',
        inferType (JArray (firstItem :: rest))
        = inferType (JArray (firstItem :: rest'))).
Proof.
  split; [reflexivity|].
  split; intros; reflexivity.
Qed.

(** ** [inferTypeFromExamples] *)

Lemma find_first {A : Type} (f : A -> bool) (l : list A) :
  match find f l with
  | Some x =>
      exists before after,
        l = before ++ x :: after
        /\ (forall y, In y before -> f y = false) /\ f x = true
  | None => forall y, In y l -> f y = false
  end.
Proof.
  induction l as [|a l IH]; simpl; [tauto|].
  destruct (f a) eqn:E.
  - exists [], l. simpl. tauto.
  - destruct (find f l) as [x|].
    + destruct IH as (before & after & -> & Hb & Hx).
      exists (a :: before), after. simpl. split; [reflexivity|].
      split; [|exact Hx]. intros y [<-|Hy]; auto.
    + intros y [<-|Hy]; auto.
Qed.

Lemma kind_eqb_eq a b : kind_eqb a b = true <-> a = b.
Proof. destruct a, b; simpl; split; congruence. Qed.

Lemma kind_eqb_neq a b : kind_eqb a b = false <-> a <> b.
Proof. destruct a, b; simpl; split; congruence. Qed.

Lemma forallb_false_iff {A : Type} (f : A -> bool) (l : list A) :
  forallb f l = false <-> ~ (forall x, In x l -> f x = true).
Proof.
  destruct (forallb f l) eqn:E.
  - rewrite forallb_forall in E. split; [discriminate|tauto].
  - split; [|reflexivity]. intros _ H.
    apply forallb_forall in H. congruence.
Qed.

(** C6: [inferTypeFromExamples] returns [{kind: null}] for no example, the
    single-value inference for one example, and for two or more examples whose
    inferred nodes are not all objects the first inferred node, in input
    order, whose kind is not null, or [{kind: null}] when every one is null. *)
Theorem inferTypeFromExamples_cases :
  forall examples : list JSON,
    match examples with
    | [] => inferTypeFromExamples examples = prim KNull
    | [example] => inferTypeFromExamples examples = inferType example
    | _ =>
        ~ (forall ex, In ex examples -> kind (inferType ex) = KObject) ->
        (exists before ex after,
            examples = before ++ ex :: after
            /\ (forall e, In e before -> kind (inferType e) = KNull)
            /\ kind (inferType ex) <> KNull
            /\ inferTypeFromExamples examples = inferType ex)
        \/ ((forall e, In e examples -> kind (inferType e) = KNull)
            /\ inferTypeFromExamples examples = prim KNull)
    end.
Proof.
  intros [|e0 [|e1 rest]]; [reflexivity|reflexivity|].
  set (examples := e0 :: e1 :: rest). intros Hmixed.
  assert (Hall : forallb (fun t => kind_eqb (kind t) KObject)
                         (map inferType examples) = false).
  { apply forallb_false_iff. intros H. apply Hmixed. intros ex Hex.
    apply kind_eqb_eq. apply H. apply in_map, Hex. }
  assert (Hres : inferTypeFromExamples examples =
                 match find (fun t => negb (kind_eqb (kind t) KNull))
                            (map inferType examples) with
                 | Some t => t
                 | None => prim KNull
                 end).
  { unfold inferTypeFromExamples, examples. fold examples. rewrite Hall.
    reflexivity. }
  pose proof (find_first (fun t => negb (kind_eqb (kind t) KNull))
                         (map inferType examples)) as Hfind.
  destruct (find _ (map inferType examples)) as [t|].
  - left. destruct Hfind as (tb & ta & Hsplit & Hb & Ht).
    apply map_eq_app in Hsplit.
    destruct Hsplit as (before & tail & Hex & Hbefore & Htail).
    destruct tail as [|ex after]; [discriminate|].
    injection Htail as Ht' Hta.
    exists before, ex, after. split; [exact Hex|].
    rewrite Hres, Ht'.
    split; [|split; [|reflexivity]].
    + intros e He. specialize (Hb (inferType e)).
      rewrite <- Hbefore in Hb. specialize (Hb (in_map _ _ _ He)).
      apply negb_false_iff, kind_eqb_eq in Hb. exact Hb.
    + apply negb_true_iff, kind_eqb_neq in Ht. exact Ht.
  - right. split; [|exact Hres]. intros e He.
    specialize (Hfind (inferType e) (in_map _ _ _ He)).
    apply negb_false_iff, kind_eqb_eq in Hfind. exact Hfind.
Qed.

Lemma inferTypeFromExamples_cases_witness :
  (exists before ex after,
      [JNull; JString "x"; num 3] = before ++ ex :: after
      /\ (forall e, In e before -> kind (inferType e) = KNull)
      /\ kind (inferType ex) <> KNull
      /\ inferTypeFromExamples [JNull; JString "x"; num 3] = inferType ex)
  \/ ((forall e, In e [JNull; JString "x"; num 3] -> kind (inferType e) = KNull)
      /\ inferTypeFromExamples [JNull; JString "x"; num 3] = prim KNull).
Proof.
  apply (inferTypeFromExamples_cases [JNull; JString "x"; num 3]).
  intros H. specialize (H JNull (or_introl eq_refl)). discriminate H.
Defined.

(** ** The type-merge algorithm *)

(** C3: two or more candidates whose kinds are not all equal merge to exactly
    [{kind: string}]; candidates that all share one primitive kind merge to the
    first candidate.  In particular the merge of the inferences of [{a:1}] and
    [{a:"x"}] gives property [a] the node [{kind: string}]. *)
Theorem mergeTypes_kind_conflict :
  (forall types t1 t2,
      2 <= List.length types ->
      In t1 types -> In t2 types -> kind t1 <> kind t2 ->
      mergeTypes types = prim KString)
  /\ (forall t rest,
        is_primitive (kind t) = true ->
        (forall t', In t' rest -> kind t' = kind t) ->
        mergeTypes (t :: rest) = t)
  /\ prop_of "a" (inferTypeFromExamples [example_a; example_a_str])
     = Some (prim KString).
Proof.
  split; [|split].
  - intros [|t0 [|t1' rest]] t1 t2 Hlen H1 H2 Hne; simpl in Hlen; try lia.
    rewrite mergeTypes_many. cbv zeta.
    destruct (forallb _ _) eqn:E; [|reflexivity].
    rewrite forallb_forall in E.
    apply E, kind_eqb_eq in H1. apply E, kind_eqb_eq in H2. congruence.
  - intros t [|t1 rest] Hprim Hsame; [apply mergeTypes_one|].
    rewrite mergeTypes_many. cbv zeta.
    assert (E : forallb (fun t' => kind_eqb (kind t') (kind t))
                        (t :: t1 :: rest) = true).
    { apply forallb_forall. intros t' [<-|H]; apply kind_eqb_eq; auto. }
    rewrite E.
    destruct (kind t); try reflexivity; discriminate.
  - vm_compute. reflexivity.
Qed.

Lemma mergeTypes_kind_conflict_witness :
  mergeTypes [prim KNumber; prim KString; prim KNumber] = prim KString.
Proof.
  apply (proj1 mergeTypes_kind_conflict
               [prim KNumber; prim KString; prim KNumber]
               (prim KNumber) (prim KString)).
  - simpl. lia.
  - simpl. auto.
  - simpl. auto.
  - discriminate.
Defined.

(** C4, as the specification states it, fails: with two array candidates of
    which only the second has [items], the merge is the first candidate, which
    has no [items]. *)
Lemma mergeTypes_array_items_counterexample :
  let types := [bare_array; string_array] in
  2 <= List.length types
  /\ (forall t, In t types -> kind t = KArray)
  /\ (exists t, In t types /\ items t <> None)
  /\ mergeTypes types = bare_array
  /\ mergeTypes types <> array_of (mergeTypes (defined (map items types))).
Proof.
  cbv zeta. split; [simpl; lia|]. split; [|split; [|split]].
  - intros t [<-|[<-|[]]]; reflexivity.
  - exists string_array. split; [simpl; auto|discriminate].
  - vm_compute. reflexivity.
  - vm_compute. discriminate.
Qed.

(** C4 (amended): for two or more candidates, all of array kind, whose first
    candidate has an [items] field, the type-merge returns [{kind: array,
    items: m}] where [m] is the type-merge of all [items] values present among
    the candidates. *)
Theorem mergeTypes_array_items :
  forall t0 t1 rest i,
    (forall t, In t (t0 :: t1 :: rest) -> kind t = KArray) ->
    items t0 = Some i ->
    mergeTypes (t0 :: t1 :: rest)
    = array_of (mergeTypes (defined (map items (t0 :: t1 :: rest)))).
Proof.
  intros t0 t1 rest i Hall Hitems.
  rewrite mergeTypes_many. cbv zeta.
  assert (E : forallb (fun t => kind_eqb (kind t) (kind t0))
                      (t0 :: t1 :: rest) = true).
  { apply forallb_forall. intros t Ht. apply kind_eqb_eq.
    rewrite (Hall t Ht), (Hall t0); [reflexivity|simpl; auto]. }
  rewrite E, (Hall t0), Hitems by (simpl; auto).
  reflexivity.
Qed.

Lemma mergeTypes_array_items_witness :
  mergeTypes [array_of (prim KNumber); bare_array; array_of (prim KString)]
  = array_of (mergeTypes [prim KNumber; prim KString]).
Proof.
  apply (mergeTypes_array_items (array_of (prim KNumber)) bare_array
                                [array_of (prim KString)] (prim KNumber)).
  - intros t [<-|[<-|[<-|[]]]]; reflexivity.
  - reflexivity.
Defined.

(** Without [items] on the first candidate the array branch is skipped and
    the first candidate is returned. *)
Lemma mergeTypes_array_first_bare t0 t1 rest :
  (forall t, In t (t0 :: t1 :: rest) -> kind t = KArray) ->
  items t0 = None ->
  mergeTypes (t0 :: t1 :: rest) = t0.
Proof.
  intros Hall Hitems.
  rewrite mergeTypes_many. cbv zeta.
  destruct (forallb _ _) eqn:E.
  - rewrite (Hall t0), Hitems by (simpl; auto). reflexivity.
  - apply forallb_false_iff in E. exfalso. apply E.
    intros t Ht. apply kind_eqb_eq.
    rewrite (Hall t Ht), (Hall t0); [reflexivity|simpl; auto].
Qed.

(** On the nodes single-value inference produces, every array node has an
    [items] field, so the first-candidate test never fails there. *)
Lemma inferType_array_has_items v :
  kind (inferType v) = KArray -> items (inferType v) <> None.
Proof.
  destruct v as [| | | |[|x l]|es]; simpl; try discriminate.
Qed.

(** ** The object-merge algorithm *)

(** C2 (code bug): the claim fails on the code for a name that is a member of
    [Object.prototype].  Merging the inferences of [{a:1, constructor:"x"}]
    and [{a:2}], the lookup [t.properties?.[propName]] finds the inherited
    [constructor] in the second node, which has no such key: the name is
    counted in every node and listed in [required]. *)
Theorem mergeObjectTypeDefinitions_inherited_name_required :
  let types := [inferType example_constructor; inferType example_a2] in
  mergeObjectTypeDefinitions types
  = object_of [("a", prim KNumber); ("constructor", prim KString)]
              ["a"; "constructor"]
  /\ ~ occurs_in "constructor" (inferType example_a2)
  /\ In "constructor" (opt_list (required (mergeObjectTypeDefinitions types))).
Proof.
  cbv zeta. split; [vm_compute; reflexivity|]. split.
  - intros (ps & Hps & Hin). vm_compute in Hps. injection Hps as <-.
    destruct Hin as [H|[]]. discriminate H.
  - vm_compute. auto.
Qed.

Lemma inferType_object entries :
  js_ordered (Obj.keys entries) = true ->
  ~ In "__proto__" (Obj.keys entries) ->
  inferType (JObject entries)
  = object_of (map (fun e => (fst e, inferType (snd e))) entries)
              (Obj.keys entries).
Proof.
  intros Hord Hproto. simpl.
  rewrite (assign_fold_ordered inferType); [reflexivity|exact Hord|exact Hproto].
Qed.

(** ** Merging an example with itself *)

(** C7 (code bug): the claim fails on the code for an example with the key
    [__proto__].  For [v = {__proto__: 1}], [inferType v] lists [__proto__]
    in [required] but its [properties] has no key, the assignment
    [properties[key] = ...] having replaced the prototype instead; the merge
    of [v] with itself collects no property name and returns an empty
    [required]. *)
Theorem inferTypeFromExamples_proto_example_twice :
  inferType example_proto = object_of [] ["__proto__"]
  /\ inferTypeFromExamples [example_proto; example_proto] = object_of [] []
  /\ inferTypeFromExamples [example_proto; example_proto]
     <> inferType example_proto.
Proof.
  split; [vm_compute; reflexivity|]. split; [vm_compute; reflexivity|].
  vm_compute. discriminate.
Qed.

(** ** The data-model invariant *)

(** C9 (code bug): the claim fails on the code for an object with the key
    [__proto__].  For [{a: "s", __proto__: 1}], [inferType] returns
    [required = [a, __proto__]] while [properties] has the single key [a]:
    the assignment [properties["__proto__"] = ...] replaces the prototype and
    creates no property. *)
Theorem inferType_proto_key_breaks_invariant :
  inferType example_a_proto
  = object_of [("a", prim KString)] ["a"; "__proto__"]
  /\ td_invariant (inferType example_a_proto) = false
  /\ In "__proto__" (opt_list (required (inferType example_a_proto)))
  /\ ~ occurs_in "__proto__" (inferType example_a_proto).
Proof.
  split; [vm_compute; reflexivity|]. split; [vm_compute; reflexivity|].
  split; [vm_compute; auto|].
  intros (ps & Hps & Hin). vm_compute in Hps. injection Hps as <-.
  destruct Hin as [H|[]]. discriminate H.
Qed.

(** ** The JSON Schema generator and the [required] list *)

Lemma convertTypeToJsonSchema_object ps it rq d :
  convertTypeToJsonSchema (TypeDef KObject ps it rq d)
  = let properties :=
      fold_left
        (fun (properties : list (string * JsValue))
             (entry : string * TypeDefinition) =>
           Obj.set (fst entry) (VObject (convertTypeToJsonSchema (snd entry)))
                   properties)
        (opt_list ps) [] in
    [("type", VString "object")]
    ++ (if 0 <? List.length (Obj.keys properties)
        then [("properties", VObject properties)] else [])
    ++ (if 0 <? List.length (opt_list rq)
        then [("required", VArray (map VString (opt_list rq)))] else []).
Proof.
  simpl. cbv zeta.
  replace (match ps with
           | Some l =>
               fold_left
                 (fun properties entry =>
                    Obj.set (fst entry)
                            (VObject (convertTypeToJsonSchema (snd entry)))
                            properties) l []
           | None => []
           end)
    with (fold_left
            (fun (properties : list (string * JsValue))
                 (entry : string * TypeDefinition) =>
               Obj.set (fst entry)
                       (VObject (convertTypeToJsonSchema (snd entry)))
                       properties)
            (opt_list ps) [])
    by (destruct ps; reflexivity).
  replace (match rq with Some r => r | None => [] end) with (opt_list rq)
    by reflexivity.
  destruct (0 <? List.length (Obj.keys _)); destruct (0 <? List.length (opt_list rq));
    reflexivity.
Qed.



(** C10: the Schema-notation renderer copies [required] verbatim: a non-empty
    [required] list of an object node is emitted as it is, whatever the
    [properties] are; for the node [dangling_required] the emitted list
    contains a name that is no key of [properties]; and with no properties but
    a non-empty [required] the schema has no [properties] key and still has
    [required]. *)
Theorem jsonSchema_required_verbatim :
  (forall ps it req d,
      req <> [] ->
      Obj.get "required"
              (convertTypeToJsonSchema (TypeDef KObject ps it (Some req) d))
      = Some (VArray (map VString req)))
  /\ (kind dangling_required = KObject
      /\ In "ghost" (opt_list (required dangling_required))
      /\ ~ occurs_in "ghost" dangling_required
      /\ In "ghost" (schemaRequired (convertTypeToJsonSchema dangling_required)))
  /\ (forall ps it req d,
        req <> [] ->
        opt_list ps = [] ->
        convertTypeToJsonSchema (TypeDef KObject ps it (Some req) d)
        = [("type", VString "object");
           ("required", VArray (map VString req))]).
Proof.
  split; [|split].
  - intros ps it req d Hreq. rewrite convertTypeToJsonSchema_object.
    cbv zeta. simpl opt_list at 2 3.
    destruct req as [|r0 rs]; [congruence|].
    destruct (0 <? List.length (Obj.keys _)); reflexivity.
  - split; [reflexivity|]. split; [simpl; auto|]. split.
    + intros (ps & [= <-] & [H|[]]). discriminate H.
    + vm_compute. auto.
  - intros ps it req d Hreq Hps. rewrite convertTypeToJsonSchema_object.
    rewrite Hps. destruct req as [|r0 rs]; [congruence|]. reflexivity.
Qed.

Lemma jsonSchema_required_verbatim_witness :
  convertTypeToJsonSchema (TypeDef KObject (Some []) None (Some ["ghost"]) None)
  = [("type", VString "object");
     ("required", VArray (map VString ["ghost"]))].
Proof.
  apply (proj2 (proj2 jsonSchema_required_verbatim)
               (Some []) None ["ghost"] None).
  - discriminate.
  - reflexivity.
Defined.

(** ** Agreement of the four renderers *)


Lemma str_append_inj (a x y : string) : a +++ x = a +++ y -> x = y.
Proof. induction a as [|c a IH]; simpl; [auto|]. intros [= H]. auto. Qed.



Lemma convertTypeToTypeScript_object e l it rq d indent :
  convertTypeToTypeScript (TypeDef KObject (Some (e :: l)) it rq d) indent
  = "{" +++ nl
    +++ join nl
          (map (fun kv : string * TypeDefinition =>
                  tsField (str_repeat "  " indent) (opt_list rq) (fst kv)
                    (convertTypeToTypeScript (snd kv) (indent + 1)))
               (e :: l))
    +++ nl +++ str_repeat "  " indent +++ "}".
Proof. reflexivity. Qed.




(** ** The facade *)

(** C1, as the specification states it, fails: [generateAll] takes one JSON
    value; handed the list of the two examples [{a:1,b:2}] and [{a:1}] it
    infers an array type from the first of them and never merges. *)
Lemma generateAll_examples_counterexample :
  Obj.get "typescript"
          (generateAll (JArray [example_a_b; example_a]) "Schema")
  = Some ("export interface Schema Array<{" +++ nl
          +++ "  a: number;" +++ nl
          +++ "  b: number;" +++ nl
          +++ "}>")
  /\ Obj.get "typescript"
             (generateAll_spec [example_a_b; example_a] "Schema")
     = Some ("export interface Schema {" +++ nl
             +++ "  a: number;" +++ nl
             +++ "  b?: number;" +++ nl
             +++ "}")
  /\ generateAll (JArray [example_a_b; example_a]) "Schema"
     <> generateAll_spec [example_a_b; example_a] "Schema".
Proof.
  split; [vm_compute; reflexivity|]. split; [vm_compute; reflexivity|].
  intros H. apply (f_equal (Obj.get "typescript")) in H.
  vm_compute in H. discriminate H.
Qed.

(** C1 (amended): [generateAll] takes a single JSON value and a type name,
    runs single-value inference on it once, and passes the one resulting node
    to all four renderers.  The choice between [inferType] (one example) and
    [inferTypeFromExamples] (two or more) is made by the CLI action, which
    likewise hands one node to the four renderers. *)
Theorem generateAll_single_inference :
  (forall json typeName,
      exists typeDef,
        typeDef = inferType json
        /\ generateAll json typeName
           = [("jsonSchema", generateJsonSchema typeName typeDef);
              ("typescript", generateTypeScript typeName typeDef);
              ("zod", zodImport +++ generateZod typeName typeDef);
              ("apiDoc", generateApiDoc typeName typeDef)])
  /\ (forall examples typeName,
        exists typeDef,
          match examples with
          | [] => True
          | [example] => typeDef = inferType example
          | _ => typeDef = inferTypeFromExamples examples
          end
          /\ cliOutputs examples typeName
             = [("json-schema", generateJsonSchema typeName typeDef);
                ("typescript", generateTypeScript typeName typeDef);
                ("zod", zodImport +++ generateZod typeName typeDef);
                ("api-doc", generateApiDoc typeName typeDef)]).
Proof.
  split.
  - intros json typeName. exists (inferType json). split; reflexivity.
  - intros examples typeName. exists (cliTypeDef examples).
    split; [|reflexivity].
    destruct examples as [|e0 [|e1 rest]]; [exact I|reflexivity|reflexivity].
Qed.

(** * Further properties of the code *)

(** ** The shape of inferred and merged nodes *)




Lemma td_shape_array_has_items t :
  td_shape t = true -> kind t = KArray -> exists i, items t = Some i.
Proof.
  destruct t as [k ps it rq d]. simpl. intros H ->.
  destruct d; [discriminate|]. simpl in H.
  destruct ps, it, rq; try discriminate. eauto.
Qed.




Lemma inferTypeFromExamples_many e0 e1 rest :
  inferTypeFromExamples (e0 :: e1 :: rest) =
  let allTypes := map inferType (e0 :: e1 :: rest) in
  if forallb (fun t => kind_eqb (kind t) KObject) allTypes then
    mergeObjectTypeDefinitions
      (filter (fun t => kind_eqb (kind t) KObject) allTypes)
  else
    match find (fun t => negb (kind_eqb (kind t) KNull)) allTypes with
    | Some t => t
    | None => prim KNull
    end.
Proof. reflexivity. Qed.



Lemma defined_map_all {A B : Type} (f : A -> option B) (l : list A) :
  (forall x, In x l -> exists y, f x = Some y) ->
  List.length (defined (map f l)) = List.length l.
Proof.
  induction l as [|x l IH]; simpl; intros H; [reflexivity|].
  destruct (H x) as (y & ->); [auto|]. simpl. rewrite IH; auto.
Qed.

(** X2: on shaped nodes, hence on everything inference builds, the array
    branch of the type-merge is always taken: two or more array candidates
    merge to an array whose [items] is the type-merge of the [items] of all
    the candidates, none of which is missing. *)
Theorem mergeTypes_shaped_arrays :
  forall types,
    2 <= List.length types ->
    (forall t, In t types -> td_shape t = true /\ kind t = KArray) ->
    mergeTypes types = array_of (mergeTypes (defined (map items types)))
    /\ List.length (defined (map items types)) = List.length types.
Proof.
  intros [|t0 [|t1 rest]] Hlen Hall; simpl in Hlen; try lia.
  split.
  - rewrite mergeTypes_many. cbv zeta.
    assert (E : forallb (fun t => kind_eqb (kind t) (kind t0))
                        (t0 :: t1 :: rest) = true).
    { apply forallb_forall. intros t Ht. apply kind_eqb_eq.
      rewrite (proj2 (Hall t Ht)), (proj2 (Hall t0 (or_introl eq_refl))).
      reflexivity. }
    rewrite E.
    destruct (Hall t0 (or_introl eq_refl)) as [Hs Hk].
    destruct (td_shape_array_has_items t0 Hs Hk) as (i & Hi).
    rewrite Hk, Hi. reflexivity.
  - apply defined_map_all. intros t Ht.
    destruct (Hall t Ht) as [Hs Hk].
    apply (td_shape_array_has_items t Hs Hk).
Qed.

Lemma mergeTypes_shaped_arrays_witness :
  mergeTypes [inferType (JArray []); inferType (JArray [num 1])]
  = array_of (mergeTypes
                (defined (map items [inferType (JArray []);
                                     inferType (JArray [num 1])])))
  /\ List.length (defined (map items [inferType (JArray []);
                                      inferType (JArray [num 1])]))
     = List.length [inferType (JArray []); inferType (JArray [num 1])].
Proof.
  apply (mergeTypes_shaped_arrays
           [inferType (JArray []); inferType (JArray [num 1])]).
  - simpl. lia.
  - intros t [<-|[<-|[]]]; split; reflexivity.
Defined.

(** ** Kinds through the merges *)

(** X3: the type-merge never invents a kind: for a non-empty list of
    candidates the result has the kind of the first candidate, or is the
    fallback [{kind: string}]; when all candidates have one kind, the result
    has that kind. *)
Theorem mergeTypes_kind :
  forall t0 rest,
    (kind (mergeTypes (t0 :: rest)) = kind t0
     \/ mergeTypes (t0 :: rest) = prim KString)
    /\ ((forall t, In t rest -> kind t = kind t0) ->
        kind (mergeTypes (t0 :: rest)) = kind t0).
Proof.
  intros t0 [|t1 rest].
  - rewrite mergeTypes_one. auto.
  - rewrite mergeTypes_many. cbv zeta.
    assert (Hsame : kind (match kind t0, items t0 with
                          | KArray, Some _ =>
                              array_of
                                (mergeTypes
                                   (defined (map items (t0 :: t1 :: rest))))
                          | KObject, _ =>
                              mergeObjectTypeDefinitions (t0 :: t1 :: rest)
                          | _, _ => t0
                          end) = kind t0).
    { destruct (kind t0) eqn:Ek; try exact Ek.
      - destruct (items t0); [reflexivity|exact Ek].
      - rewrite mergeObjectTypeDefinitions_closed. reflexivity. }
    destruct (forallb _ _) eqn:E.
    + split; [left; exact Hsame|intros _; exact Hsame].
    + split; [right; reflexivity|].
      intros Hall. apply forallb_false_iff in E. exfalso. apply E.
      intros t [<-|Ht]; apply kind_eqb_eq; [reflexivity|apply Hall, Ht].
Qed.

Lemma mergeTypes_kind_witness :
  kind (mergeTypes [inferType (JArray []); inferType (JArray [num 1])])
  = kind (inferType (JArray [])).
Proof.
  apply (proj2 (mergeTypes_kind (inferType (JArray []))
                                [inferType (JArray [num 1])])).
  intros t [<-|[]]. reflexivity.
Defined.

(** X13: at top level [inferTypeFromExamples] never invents a kind either:
    for a non-empty list of examples the kind of the result is the kind
    single-value inference gives to one of the examples. *)
Theorem inferTypeFromExamples_kind_of_an_example :
  forall e0 rest,
    exists e, In e (e0 :: rest)
              /\ kind (inferTypeFromExamples (e0 :: rest))
                 = kind (inferType e).
Proof.
  intros e0 [|e1 rest].
  - exists e0. split; [simpl; auto|reflexivity].
  - rewrite inferTypeFromExamples_many. cbv zeta.
    destruct (forallb _ _) eqn:E.
    + exists e0. split; [simpl; auto|].
      rewrite mergeObjectTypeDefinitions_closed.
      rewrite forallb_forall in E.
      symmetry. apply kind_eqb_eq, E. simpl. auto.
    + pose proof (find_first (fun t => negb (kind_eqb (kind t) KNull))
                             (map inferType (e0 :: e1 :: rest))) as Hf.
      destruct (find _ _) as [t|] eqn:Ef.
      * apply find_some in Ef. destruct Ef as [Hin _].
        apply in_map_iff in Hin. destruct Hin as (e & <- & He).
        exists e. split; [exact He|reflexivity].
      * exists e0. split; [simpl; auto|].
        specialize (Hf (inferType e0) (or_introl eq_refl)).
        apply negb_false_iff, kind_eqb_eq in Hf. symmetry. exact Hf.
Qed.


(** ** Repeated examples *)

Lemma forallb_repeat {A : Type} (f : A -> bool) x n :
  f x = true -> forallb f (repeat x n) = true.
Proof. intros H. induction n; simpl; [reflexivity|]. rewrite H. exact IHn. Qed.

Lemma filter_repeat {A : Type} (f : A -> bool) x n :
  f x = true -> filter f (repeat x n) = repeat x n.
Proof. intros H. apply filter_all. intros y Hy. apply repeat_spec in Hy. subst. exact H. Qed.

Lemma defined_map_repeat {A B : Type} (f : A -> option B) x y n :
  f x = Some y -> defined (map f (repeat x n)) = repeat y n.
Proof.
  intros H. induction n; simpl; [reflexivity|]. rewrite H, IHn. reflexivity.
Qed.

Lemma fold_names_absorbed types names :
  (forall t p, In t types -> has_prop p t = true -> In p names) ->
  fold_left add_type_names types names = names.
Proof.
  induction types as [|t ts IH]; simpl; intros H; [reflexivity|].
  assert (E : add_type_names names t = names).
  { unfold add_type_names. destruct (properties t) as [ps|] eqn:Ep;
      [|reflexivity].
    apply add_keys_absorbed. intros k Hk. apply (H t k); [auto|].
    apply has_prop_keys. eauto. }
  rewrite E. apply IH. intros t' p Ht'. apply (H t' p). auto.
Qed.

Lemma mergeTypes_same_primitive t rest :
  is_primitive (kind t) = true ->
  (forall t', In t' rest -> t' = t) ->
  mergeTypes (t :: rest) = t.
Proof.
  intros Hprim Hsame. destruct rest as [|t1 rest]; [apply mergeTypes_one|].
  rewrite mergeTypes_many. cbv zeta.
  assert (E : forallb (fun t' => kind_eqb (kind t') (kind t))
                      (t :: t1 :: rest) = true).
  { apply forallb_forall. intros t' [<-|H]; apply kind_eqb_eq;
      [reflexivity|rewrite (Hsame t' H); reflexivity]. }
  rewrite E. destruct (kind t); try reflexivity; discriminate.
Qed.

(** With the name an own key of every node, no candidate is inherited. *)
Lemma mergedType_own p types :
  (forall t, In t types -> has_prop p t = true) ->
  mergedType p types = mergeTypes (defined (map (prop_of p) types)).
Proof.
  intros Hown. unfold mergedType, mergeCandidates.
  rewrite types_of_js_prop.
  replace (existsb is_inherited (map (js_prop p) types)) with false;
    [reflexivity|].
  symmetry. induction types as [|t ts IH]; [reflexivity|].
  cbn [map existsb]. rewrite IH by (intros t' Ht'; apply Hown; right; exact Ht').
  rewrite js_prop_own. specialize (Hown t (or_introl eq_refl)).
  unfold has_prop in Hown. destruct (prop_of p t); [reflexivity|discriminate].
Qed.

Lemma mergeTypes_repeat v :
  json_wf v = true ->
  json_no_proto v = true ->
  forall n, mergeTypes (repeat (inferType v) (S n)) = inferType v.
Proof.
  induction v as [| s | x | b | elems IH | entries IH] using JSON_ind;
    intros Hwf Hnp n;
    try (apply mergeTypes_same_primitive;
         [reflexivity|intros t' Ht'; apply repeat_spec in Ht'; exact Ht']).
  - (* arrays *)
    destruct n as [|n]; [apply mergeTypes_one|].
    set (t := inferType (JArray elems)).
    change (repeat t (S (S n))) with (t :: t :: repeat t n).
    rewrite mergeTypes_many. cbv zeta.
    change (t :: t :: repeat t n) with (repeat t (S (S n))).
    rewrite forallb_repeat by (apply kind_eqb_eq; reflexivity).
    destruct elems as [|x l].
    + change (kind t) with KArray. change (items t) with (Some (prim KString)).
      cbv iota.
      rewrite (defined_map_repeat items t (prim KString)) by reflexivity.
      change (repeat (prim KString) (S (S n)))
        with (prim KString :: repeat (prim KString) (S n)).
      rewrite mergeTypes_same_primitive; [reflexivity|reflexivity|].
      intros t' Ht'. apply repeat_spec in Ht'. exact Ht'.
    + change (kind t) with KArray. change (items t) with (Some (inferType x)).
      cbv iota.
      rewrite (defined_map_repeat items t (inferType x)) by reflexivity.
      inversion IH as [|? ? Hx _]; subst.
      simpl in Hwf. apply andb_true_iff in Hwf. destruct Hwf as [Hwx _].
      simpl in Hnp. apply andb_true_iff in Hnp. destruct Hnp as [Hnx _].
      rewrite (Hx Hwx Hnx). reflexivity.
  - (* objects *)
    destruct n as [|n]; [apply mergeTypes_one|].
    simpl in Hwf. apply andb_true_iff in Hwf. destruct Hwf as [Hord Hwfs].
    simpl in Hnp. apply andb_true_iff in Hnp. destruct Hnp as [Hproto Hnps].
    assert (Hnd : NoDup (Obj.keys entries)) by (apply js_ordered_NoDup, Hord).
    assert (Hproto' : ~ In "__proto__" (Obj.keys entries)).
    { intros H. apply str_mem_In in H. rewrite H in Hproto. discriminate. }
    rewrite forallb_forall in Hwfs, Hnps.
    rewrite Forall_forall in IH.
    rewrite inferType_object by assumption.
    set (props := map (fun e => (fst e, inferType (snd e))) entries).
    set (t := object_of props (Obj.keys entries)).
    assert (Hkeys : Obj.keys props = Obj.keys entries).
    { unfold props, Obj.keys. rewrite map_map. reflexivity. }
    assert (Hprop : forall e, In e entries ->
                              prop_of (fst e) t = Some (inferType (snd e))).
    { intros e He. unfold prop_of, t. simpl.
      apply ObjFacts.get_In_NoDup; [rewrite Hkeys; exact Hnd|].
      unfold props. apply (in_map (fun e => (fst e, inferType (snd e)))), He. }
    assert (Hhas : forall p, has_prop p t = true <-> In p (Obj.keys entries)).
    { intros p. rewrite has_prop_keys. unfold t. simpl. rewrite <- Hkeys.
      split; [intros (ps & [= <-] & H); exact H|eauto]. }
    change (repeat t (S (S n))) with (t :: t :: repeat t n).
    rewrite mergeTypes_many. cbv zeta.
    change (t :: t :: repeat t n) with (repeat t (S (S n))).
    rewrite forallb_repeat by (apply kind_eqb_eq; reflexivity).
    change (kind t) with KObject. cbv iota.
    rewrite mergeObjectTypeDefinitions_closed.
    assert (Hnames : allPropertyNames (repeat t (S (S n))) = Obj.keys entries).
    { unfold allPropertyNames.
      change (repeat t (S (S n))) with (t :: repeat t (S n)).
      cbn [fold_left].
      assert (E : add_type_names [] t = Obj.keys entries).
      { unfold add_type_names, t. simpl. rewrite Hkeys.
        apply add_keys_fresh, Hnd. }
      rewrite E. apply fold_names_absorbed.
      intros t' p Ht' Hp. apply repeat_spec in Ht'. subst t'.
      apply Hhas, Hp. }
    rewrite Hnames, names_fold_ordered by assumption.
    transitivity (object_of props (Obj.keys entries)); [|reflexivity].
    f_equal.
    + unfold props, Obj.keys. rewrite map_map.
      apply map_ext_in. intros e He. f_equal. cbv beta.
      rewrite mergedType_own.
      * rewrite (defined_map_repeat (prop_of (fst e)) t (inferType (snd e)))
          by (apply Hprop, He).
        apply IH; auto.
      * intros t' Ht'. apply repeat_spec in Ht'. subst t'.
        apply Hhas. apply (in_map fst) in He. exact He.
    + apply filter_all. intros p Hp.
      apply forallb_repeat, appears_own, Hhas, Hp.
Qed.

(** X4: repeating one example any number of times changes nothing, provided
    no object of the example has the key [__proto__]: for every such JSON
    value [v] and every [n], [inferTypeFromExamples] on [n + 1] copies of [v]
    is [inferType v]. *)
Theorem inferTypeFromExamples_repeat :
  forall (v : JSON) (n : nat),
    json_wf v = true ->
    json_no_proto v = true ->
    inferTypeFromExamples (repeat v (S n)) = inferType v.
Proof.
  intros v [|n] Hwf Hnp; [reflexivity|].
  pose proof (mergeTypes_repeat v Hwf Hnp (S n)) as Hm.
  change (repeat v (S (S n))) with (v :: v :: repeat v n).
  rewrite inferTypeFromExamples_many. cbv zeta.
  change (v :: v :: repeat v n) with (repeat v (S (S n))).
  rewrite map_repeat.
  destruct (kind_eqb (kind (inferType v)) KObject) eqn:Ek.
  - rewrite forallb_repeat, filter_repeat by exact Ek.
    apply kind_eqb_eq in Ek.
    change (repeat (inferType v) (S (S n)))
      with (inferType v :: inferType v :: repeat (inferType v) n) in Hm.
    rewrite mergeTypes_many in Hm. cbv zeta in Hm.
    change (inferType v :: inferType v :: repeat (inferType v) n)
      with (repeat (inferType v) (S (S n))) in Hm.
    rewrite forallb_repeat in Hm by (apply kind_eqb_eq; reflexivity).
    rewrite Ek in Hm. exact Hm.
  - simpl forallb. rewrite Ek. simpl andb. cbv iota.
    destruct v as [| s | x | b | elems | entries]; try reflexivity.
    + destruct (find _ _) as [t|] eqn:E; [|reflexivity].
      apply find_some in E. destruct E as [Hin Hf].
      apply repeat_spec in Hin. subst t. discriminate Hf.
    + destruct elems; reflexivity.
Qed.

Lemma inferTypeFromExamples_repeat_witness :
  inferTypeFromExamples (repeat nested_example 4) = inferType nested_example.
Proof.
  apply (inferTypeFromExamples_repeat nested_example 3).
  - vm_compute. reflexivity.
  - vm_compute. reflexivity.
Defined.

(** ** Object examples, end to end *)

Lemma json_no_proto_keys e ks :
  json_no_proto e = true -> json_keys e = Some ks -> ~ In "__proto__" ks.
Proof.
  destruct e as [| s | x | b | l | entries]; simpl; try discriminate.
  intros H [= <-] Hin. apply andb_true_iff in H. destruct H as [H _].
  apply str_mem_In in Hin. rewrite Hin in H. discriminate H.
Qed.

Lemma has_prop_inferType p e :
  has_prop p (inferType e) = true
  <-> exists ks, json_keys e = Some ks /\ In p ks /\ p <> "__proto__".
Proof.
  rewrite has_prop_keys.
  destruct e as [| s | x | b | [|y l] | entries]; simpl;
    try (split; [intros (ps & H & _); discriminate H
                |intros (ks & H & _); discriminate H]).
  split.
  - intros (ps & [= <-] & H). eexists. split; [reflexivity|].
    apply (assign_fold_keys inferType) in H. destruct H as [[]|H]. exact H.
  - intros (ks & [= <-] & H). eexists. split; [reflexivity|].
    apply (assign_fold_keys inferType). auto.
Qed.

Lemma inferType_object_kind e :
  is_json_object e = true <-> kind (inferType e) = KObject.
Proof.
  destruct e as [| s | x | b | [|y l] | entries]; simpl;
    split; congruence.
Qed.

Lemma inferType_object_properties e :
  is_json_object e = true -> properties (inferType e) <> None.
Proof.
  destruct e as [| s | x | b | l | entries]; simpl; discriminate.
Qed.

(** X5: for two or more examples that are all JSON objects without a
    [__proto__] key, the result of [inferTypeFromExamples] is an object node
    whose [properties] has exactly the keys occurring in some example, and
    whose [required] has exactly those of these keys that every example
    either has or finds in [Object.prototype]. *)
Theorem inferTypeFromExamples_objects :
  forall e0 e1 rest,
    (forall e, In e (e0 :: e1 :: rest) -> is_json_object e = true) ->
    (forall e, In e (e0 :: e1 :: rest) -> json_no_proto e = true) ->
    exists props req,
      inferTypeFromExamples (e0 :: e1 :: rest) = object_of props req
      /\ (forall p, In p (Obj.keys props)
                    <-> exists e ks, In e (e0 :: e1 :: rest)
                                     /\ json_keys e = Some ks /\ In p ks)
      /\ (forall p, In p req
                    <-> (exists e ks, In e (e0 :: e1 :: rest)
                                      /\ json_keys e = Some ks /\ In p ks)
                        /\ forall e, In e (e0 :: e1 :: rest) ->
                                     In p objectPrototypeNames
                                     \/ exists ks, json_keys e = Some ks
                                                   /\ In p ks).
Proof.
  intros e0 e1 rest Hobj Hnp.
  set (examples := e0 :: e1 :: rest) in *.
  assert (Hkinds : forall t, In t (map inferType examples) ->
                             kind_eqb (kind t) KObject = true).
  { intros t Ht. apply in_map_iff in Ht. destruct Ht as (e & <- & He).
    apply kind_eqb_eq, inferType_object_kind, Hobj, He. }
  unfold examples at 1. rewrite inferTypeFromExamples_many. cbv zeta.
  fold examples.
  rewrite (proj2 (forallb_forall _ _) Hkinds), (filter_all _ _ Hkinds).
  rewrite mergeObjectTypeDefinitions_closed.
  eexists _, _. split; [reflexivity|].
  assert (Hkey : forall e p,
             In e examples ->
             (has_prop p (inferType e) = true
              <-> exists ks, json_keys e = Some ks /\ In p ks)).
  { intros e p He. rewrite has_prop_inferType. split.
    - intros (ks & Hks & Hin & _). eauto.
    - intros (ks & Hks & Hin). exists ks. split; [exact Hks|].
      split; [exact Hin|]. intros ->.
      exact (json_no_proto_keys e ks (Hnp e He) Hks Hin). }
  assert (Hnames : forall p,
             In p (allPropertyNames (map inferType examples))
             <-> exists e ks, In e examples
                              /\ json_keys e = Some ks /\ In p ks).
  { intros p. rewrite allPropertyNames_In. split.
    - intros (t & Ht & Hp). apply in_map_iff in Ht.
      destruct Ht as (e & <- & He). apply (Hkey e p He) in Hp.
      destruct Hp as (ks & Hks & Hin). eauto.
    - intros (e & ks & He & Hks & Hin). exists (inferType e).
      split; [apply in_map, He|]. apply (Hkey e p He). eauto. }
  assert (Hplain : forall p,
             In p (allPropertyNames (map inferType examples)) ->
             p <> "__proto__").
  { intros p Hp. apply Hnames in Hp. destruct Hp as (e & ks & He & Hks & Hin).
    intros ->. exact (json_no_proto_keys e ks (Hnp e He) Hks Hin). }
  split.
  - intros p. rewrite names_fold_keys, <- Hnames. simpl. split.
    + intros [[]|[H _]]. exact H.
    + intros H. right. split; [exact H|apply Hplain, H].
  - intros p. rewrite filter_In, forallb_forall, Hnames. split.
    + intros [Hsome Hall]. split; [exact Hsome|]. intros e He.
      specialize (Hall (inferType e) (in_map inferType _ _ He)).
      apply appears_spec in Hall. destruct Hall as [H|[_ H]].
      * right. apply (Hkey e p He), H.
      * left. exact H.
    + intros [Hsome Hall]. split; [exact Hsome|].
      intros t Ht. apply in_map_iff in Ht. destruct Ht as (e & <- & He).
      apply appears_spec. destruct (Hall e He) as [H|H].
      * right. split; [apply inferType_object_properties, Hobj, He|exact H].
      * left. apply (Hkey e p He), H.
Qed.

Lemma inferTypeFromExamples_objects_witness :
  exists props req,
    inferTypeFromExamples [example_constructor; example_a_b; example_a2]
    = object_of props req
    /\ (forall p, In p (Obj.keys props)
                  <-> exists e ks,
                        In e [example_constructor; example_a_b; example_a2]
                        /\ json_keys e = Some ks /\ In p ks)
    /\ (forall p, In p req
                  <-> (exists e ks,
                          In e [example_constructor; example_a_b; example_a2]
                          /\ json_keys e = Some ks /\ In p ks)
                      /\ forall e,
                           In e [example_constructor; example_a_b; example_a2] ->
                           In p objectPrototypeNames
                           \/ exists ks, json_keys e = Some ks /\ In p ks).
Proof.
  apply (inferTypeFromExamples_objects example_constructor example_a_b
                                       [example_a2]).
  - intros e [<-|[<-|[<-|[]]]]; reflexivity.
  - intros e [<-|[<-|[<-|[]]]]; reflexivity.
Defined.

(** ** Order of the merged keys *)







(** X7: merging object nodes none of which has a property, among them the
    empty list of nodes, gives the object node with no property and an empty
    [required]. *)
Theorem mergeObjectTypeDefinitions_no_property :
  forall types,
    (forall t, In t types -> opt_list (properties t) = []) ->
    mergeObjectTypeDefinitions types = object_of [] [].
Proof.
  intros types Hnone.
  rewrite mergeObjectTypeDefinitions_closed.
  assert (E : allPropertyNames types = []).
  { destruct (allPropertyNames types) as [|p l] eqn:En; [reflexivity|].
    exfalso.
    assert (Hp : In p (allPropertyNames types)) by (rewrite En; left; reflexivity).
    apply allPropertyNames_In in Hp. destruct Hp as (t & Ht & Hp).
    apply has_prop_keys in Hp. destruct Hp as (ps & Hps & Hin).
    specialize (Hnone t Ht). rewrite Hps in Hnone. simpl in Hnone.
    subst ps. destruct Hin. }
  rewrite E. reflexivity.
Qed.

Lemma mergeObjectTypeDefinitions_no_property_witness :
  mergeObjectTypeDefinitions [prim KObject; inferType (JObject [])]
  = object_of [] [].
Proof.
  apply (mergeObjectTypeDefinitions_no_property
           [prim KObject; inferType (JObject [])]).
  intros t [<-|[<-|[]]]; reflexivity.
Defined.

(** ** Independence from the order of the nodes *)

(** X12: which names the object-merge lists in [properties] and which in
    [required] depends only on the set of nodes merged, not on their order
    or multiplicity. *)
Theorem mergeObjectTypeDefinitions_set_of_nodes :
  forall types types',
    (forall t, In t types <-> In t types') ->
    forall p,
      (In p (Obj.keys (opt_list (properties
                                   (mergeObjectTypeDefinitions types))))
       <-> In p (Obj.keys (opt_list (properties
                                       (mergeObjectTypeDefinitions types')))))
      /\ (In p (opt_list (required (mergeObjectTypeDefinitions types)))
          <-> In p (opt_list (required (mergeObjectTypeDefinitions types')))).
Proof.
  intros types types' Hsame p.
  rewrite !mergeObjectTypeDefinitions_closed. simpl.
  rewrite !names_fold_keys, !filter_In, !forallb_forall,
    !allPropertyNames_In.
  assert (Hex : (exists t, In t types /\ has_prop p t = true)
                <-> (exists t, In t types' /\ has_prop p t = true)).
  { split; intros (t & Ht & Hp); exists t; (split; [apply Hsame, Ht|exact Hp]). }
  assert (Hall : (forall t, In t types -> appears p t = true)
                 <-> (forall t, In t types' -> appears p t = true)).
  { split; intros H t Ht; apply H, Hsame, Ht. }
  rewrite Hex, Hall. tauto.
Qed.

Lemma mergeObjectTypeDefinitions_set_of_nodes_witness :
  (In "b" (Obj.keys (opt_list (properties
             (mergeObjectTypeDefinitions
                [inferType example_a_b; inferType example_a]))))
   <-> In "b" (Obj.keys (opt_list (properties
                 (mergeObjectTypeDefinitions
                    [inferType example_a; inferType example_a_b;
                     inferType example_a])))))
  /\ (In "b" (opt_list (required
                (mergeObjectTypeDefinitions
                   [inferType example_a_b; inferType example_a])))
      <-> In "b" (opt_list (required
                    (mergeObjectTypeDefinitions
                       [inferType example_a; inferType example_a_b;
                        inferType example_a])))).
Proof.
  apply (mergeObjectTypeDefinitions_set_of_nodes
           [inferType example_a_b; inferType example_a]
           [inferType example_a; inferType example_a_b; inferType example_a]).
  intros t. simpl. tauto.
Defined.

(** ** The schema object *)

Lemma obj_spread_header typeName typeDef :
  obj_spread (schemaHeader typeName) (convertTypeToJsonSchema typeDef)
  = schemaHeader typeName ++ convertTypeToJsonSchema typeDef.
Proof.
  destruct typeDef as [k ps it rq d]. destruct k; try reflexivity.
  rewrite convertTypeToJsonSchema_object. cbv zeta.
  destruct (0 <? List.length (Obj.keys _));
    destruct (0 <? List.length (opt_list rq)); reflexivity.
Qed.

(** X8: the four header entries of the generated schema are never
    overwritten by the converted node: the schema object is the header
    followed by the conversion, whose keys are among [type], [items],
    [properties] and [required], and whose [type] is the name of the kind.
    In particular a [description] of the node never reaches the schema. *)
Theorem generateJsonSchema_header_kept :
  forall typeName typeDef,
    generateJsonSchema typeName typeDef
    = stringify "" (VObject (schemaHeader typeName
                             ++ convertTypeToJsonSchema typeDef))
    /\ (forall key, In key (Obj.keys (convertTypeToJsonSchema typeDef)) ->
                    In key ["type"; "items"; "properties"; "required"])
    /\ Obj.get "type" (convertTypeToJsonSchema typeDef)
       = Some (VString (kind_name (kind typeDef)))
    /\ Obj.get "description"
               (schemaHeader typeName ++ convertTypeToJsonSchema typeDef)
       = Some (VString ("Auto-generated schema for " +++ typeName)).
Proof.
  intros typeName typeDef. split; [|split; [|split]].
  - unfold generateJsonSchema. cbv zeta.
    change [("$schema", VString "http://json-schema.org/draft-07/schema#");
            ("$id", VString ("https://example.com/schemas/" +++ typeName
                             +++ ".json"));
            ("title", VString typeName);
            ("description", VString ("Auto-generated schema for "
                                     +++ typeName))]
      with (schemaHeader typeName).
    rewrite obj_spread_header. reflexivity.
  - destruct typeDef as [k ps it rq d]. destruct k;
      try solve [simpl; intuition auto].
    rewrite convertTypeToJsonSchema_object. cbv zeta.
    destruct (0 <? List.length (Obj.keys _));
      destruct (0 <? List.length (opt_list rq)); simpl; intuition auto.
  - destruct typeDef as [k ps it rq d]. destruct k; try reflexivity.
    rewrite convertTypeToJsonSchema_object. reflexivity.
  - reflexivity.
Qed.

(** X9: the schema of the inference of a JSON object whose keys are in
    the order in which an object enumerates them and none of which is
    [__proto__]: no [properties] and no [required] for the empty object;
    otherwise one property schema per key of the object, in the order of the
    keys, each the schema of the inference of the value of the key, and a
    [required] list that is the key list. *)
Theorem jsonSchema_of_inferred_object :
  forall entries,
    js_ordered (Obj.keys entries) = true ->
    str_mem "__proto__" (Obj.keys entries) = false ->
    convertTypeToJsonSchema (inferType (JObject entries))
    = match entries with
      | [] => [("type", VString "object")]
      | _ =>
          [("type", VString "object");
           ("properties",
            VObject (map (fun e : string * JSON =>
                            (fst e,
                             VObject (convertTypeToJsonSchema
                                        (inferType (snd e)))))
                         entries));
           ("required", VArray (map VString (Obj.keys entries)))]
      end.
Proof.
  intros entries Hord Hproto.
  assert (Hproto' : ~ In "__proto__" (Obj.keys entries)).
  { intros H. apply str_mem_In in H. congruence. }
  rewrite inferType_object by assumption. unfold object_of.
  rewrite convertTypeToJsonSchema_object. cbv zeta. simpl opt_list.
  assert (Hkeys : Obj.keys (map (fun e : string * JSON =>
                                   (fst e, inferType (snd e))) entries)
                  = Obj.keys entries).
  { unfold Obj.keys. rewrite map_map. reflexivity. }
  rewrite (assign_fold_ordered
             (fun v => VObject (convertTypeToJsonSchema v)))
    by (simpl; rewrite Hkeys; assumption).
  rewrite map_map. simpl app at 1.
  destruct entries as [|e l]; reflexivity.
Qed.

Lemma jsonSchema_of_inferred_object_witness :
  convertTypeToJsonSchema (inferType example_a_b)
  = [("type", VString "object");
     ("properties",
      VObject [("a", VObject [("type", VString "number")]);
               ("b", VObject [("type", VString "number")])]);
     ("required", VArray [VString "a"; VString "b"])].
Proof.
  apply (jsonSchema_of_inferred_object [("a", num 1); ("b", num 2)]).
  - reflexivity.
  - reflexivity.
Defined.

(** ** Textual forms of arrays *)

Lemma str_includes_app c a b :
  str_includes c (a +++ b) = str_includes c a || str_includes c b.
Proof.
  induction a as [|x a IH]; simpl; [reflexivity|].
  destruct (Ascii.eqb c x); [reflexivity|exact IH].
Qed.

Lemma tsNeedsWrap_app a b :
  tsNeedsWrap (a +++ b) = tsNeedsWrap a || tsNeedsWrap b.
Proof.
  unfold tsNeedsWrap. rewrite !str_includes_app.
  destruct (str_includes "|" a), (str_includes "{" a), (str_includes "[" a),
    (str_includes "|" b), (str_includes "{" b); reflexivity.
Qed.

Lemma convertTypeToTypeScript_array ps i rq d indent :
  convertTypeToTypeScript (TypeDef KArray ps (Some i) rq d) indent
  = if tsNeedsWrap (convertTypeToTypeScript i indent)
    then "Array<" +++ convertTypeToTypeScript i indent +++ ">"
    else convertTypeToTypeScript i indent +++ "[]".
Proof. reflexivity. Qed.

Lemma tsNeedsWrap_item i indent :
  tsNeedsWrap (convertTypeToTypeScript i indent) = negb (ts_bare_item i).
Proof.
  destruct i as [k ps it rq d]. destruct k; try reflexivity.
  - (* arrays *)
    destruct it as [j|]; [|reflexivity].
    rewrite convertTypeToTypeScript_array.
    destruct (tsNeedsWrap (convertTypeToTypeScript j indent)) eqn:E.
    + rewrite !tsNeedsWrap_app, E. reflexivity.
    + rewrite tsNeedsWrap_app, E. reflexivity.
  - (* objects *)
    destruct ps as [[|e l]|]; try reflexivity.
    rewrite convertTypeToTypeScript_object, tsNeedsWrap_app. reflexivity.
Qed.

(** X10: the typed-interface renderer writes an array whose element is a
    primitive or an object without properties in the suffix form [T[]], and
    an array whose element is itself an array or an object with properties
    in the generic form [Array<T>]; nested arrays are never written
    [T[][]]. *)
Theorem convertTypeToTypeScript_array_form :
  forall ps i rq d indent,
    convertTypeToTypeScript (TypeDef KArray ps (Some i) rq d) indent
    = if ts_bare_item i
      then convertTypeToTypeScript i indent +++ "[]"
      else "Array<" +++ convertTypeToTypeScript i indent +++ ">".
Proof.
  intros ps i rq d indent.
  rewrite convertTypeToTypeScript_array, tsNeedsWrap_item.
  destruct (ts_bare_item i); reflexivity.
Qed.

Lemma convertTypeToZod_array ps i rq d indent :
  convertTypeToZod (TypeDef KArray ps (Some i) rq d) indent
  = if str_includes (ascii_of_nat 10) (convertTypeToZod i indent)
    then "z.array(" +++ nl +++ str_repeat "  " indent +++ "  "
         +++ convertTypeToZod i indent +++ nl +++ str_repeat "  " indent
         +++ ")"
    else "z.array(" +++ convertTypeToZod i indent +++ ")".
Proof. reflexivity. Qed.

Lemma has_fields_multiline n :
  forall t indent,
    td_size t < n ->
    str_includes (ascii_of_nat 10) (convertTypeToZod t indent) = has_fields t.
Proof.
  induction n as [|n IH]; intros t indent Hlt; [lia|].
  destruct t as [k ps it rq d]. destruct k; try reflexivity.
  - (* arrays *)
    destruct it as [i|]; [|reflexivity].
    rewrite convertTypeToZod_array.
    assert (Hi : str_includes (ascii_of_nat 10) (convertTypeToZod i indent)
                 = has_fields i).
    { apply IH. simpl in Hlt. lia. }
    change (has_fields (TypeDef KArray ps (Some i) rq d))
      with (has_fields i).
    destruct (str_includes (ascii_of_nat 10) (convertTypeToZod i indent))
      eqn:E.
    + rewrite <- Hi, !str_includes_app. reflexivity.
    + rewrite <- Hi, !str_includes_app, E. reflexivity.
  - (* objects *)
    destruct ps as [[|e l]|]; reflexivity.
Qed.

(** X11: the runtime-validator text of a node spans several lines exactly
    when the node, followed through its chain of [items], ends in an object
    with properties; an array of anything else is written on one line as
    [z.array(item)]. *)
Theorem convertTypeToZod_multiline :
  forall t indent,
    str_includes (ascii_of_nat 10) (convertTypeToZod t indent) = has_fields t
    /\ (forall ps i rq d,
          t = TypeDef KArray ps (Some i) rq d ->
          has_fields i = false ->
          convertTypeToZod t indent
          = "z.array(" +++ convertTypeToZod i indent +++ ")").
Proof.
  intros t indent. split.
  - apply (has_fields_multiline (S (td_size t))). lia.
  - intros ps i rq d -> Hi.
    rewrite convertTypeToZod_array.
    rewrite (has_fields_multiline (S (td_size i))), Hi by lia.
    reflexivity.
Qed.

Lemma convertTypeToZod_multiline_witness :
  convertTypeToZod (array_of (array_of (prim KNumber))) 0
  = "z.array(" +++ convertTypeToZod (array_of (prim KNumber)) 0 +++ ")".
Proof.
  apply (proj2 (convertTypeToZod_multiline
                  (array_of (array_of (prim KNumber))) 0)
               None (array_of (prim KNumber)) None None).
  - reflexivity.
  - reflexivity.
Defined.

(** ** The CLI action *)

Lemma filter_nil_all {A : Type} (f : A -> bool) (l : list A) :
  filter f l = [] -> forall x, In x l -> f x = false.
Proof.
  induction l as [|y l IH]; simpl; [tauto|].
  destruct (f y) eqn:E; [discriminate|].
  intros H x [<-|Hx]; auto.
Qed.

Lemma writeLoop_written writeOk typeName outputs formats done w :
  In w (written (writeLoop writeOk typeName outputs formats done)) ->
  In w done
  \/ exists format content,
       In format formats
       /\ Obj.get format outputs = Some content
       /\ w = (outputFilename typeName format, content).
Proof.
  revert done. induction formats as [|format rest IH]; simpl; intros done Hw;
    [left; exact Hw|].
  destruct (Obj.get format outputs) as [content|] eqn:Ec;
    [|left; exact Hw].
  destruct (writeOk done _); [|left; exact Hw].
  apply IH in Hw. destruct Hw as [Hw|(f & c & Hf & Hc & ->)].
  - apply in_app_or in Hw. destruct Hw as [Hw|[<-|[]]]; [left; exact Hw|].
    right. exists format, content. auto.
  - right. exists f, c. auto.
Qed.

Lemma writeLoop_all_written writeOk typeName outputs formats done :
  (forall format, In format formats -> Obj.get format outputs <> None) ->
  (forall files filename, writeOk files filename = true) ->
  exitCode (writeLoop writeOk typeName outputs formats done) = 0
  /\ written (writeLoop writeOk typeName outputs formats done)
     = done ++ map (fun format =>
                      (outputFilename typeName format,
                       interpolate (Obj.get format outputs)))
                   formats.
Proof.
  intros Hout Hok. revert done.
  induction formats as [|format rest IH]; simpl; intros done.
  - rewrite app_nil_r. auto.
  - destruct (Obj.get format outputs) as [content|] eqn:Ec;
      [|exfalso; apply (Hout format); [left; reflexivity|exact Ec]].
    rewrite Hok. simpl interpolate.
    destruct (IH (fun f Hf => Hout f (or_intror Hf))
                 (done ++ [(outputFilename typeName format, content)]))
      as [H0 H1].
    split; [exact H0|]. rewrite H1, <- app_assoc. reflexivity.
Qed.

Lemma writeLoop_stops writeOk typeName outputs formats done :
  exitCode (writeLoop writeOk typeName outputs formats done) = 0 ->
  List.length (written (writeLoop writeOk typeName outputs formats done))
  = List.length done + List.length formats.
Proof.
  revert done. induction formats as [|format rest IH]; simpl; intros done H;
    [lia|].
  destruct (Obj.get format outputs) as [content|]; [|discriminate H].
  destruct (writeOk done _); [|discriminate H].
  rewrite (IH _ H), length_app. simpl. lia.
Qed.

(** X14: the files the CLI action writes.  Every file written belongs to a
    requested format of [ALL_FORMATS]: its name is the type name followed by
    the extension of the format and its content is the output of the format.
    Nothing is written when [options.write] is off, when a requested format
    is outside [ALL_FORMATS] (the exit code is then 1), or when the output
    directory cannot be made (exit code 1).  The exit code is 0 only if
    every requested format has been written, and when the directory is there
    and no write fails, the files are those of the requested formats, in
    their order, with exit code 0.  Two different formats never share a file
    name. *)
Theorem cliAction_writes :
  forall dirOk writeOk write jsonExamples formats typeName,
    (forall w,
        In w (written (cliAction dirOk writeOk write jsonExamples formats
                                 typeName)) ->
        exists format ext,
          In format formats /\ In format ALL_FORMATS
          /\ Obj.get format FORMAT_EXTENSIONS = Some ext
          /\ Obj.get format (cliOutputs jsonExamples typeName) = Some (snd w)
          /\ fst w = typeName +++ ext)
    /\ (write = false ->
        written (cliAction dirOk writeOk write jsonExamples formats typeName)
        = []
        /\ exitCode (cliAction dirOk writeOk write jsonExamples formats
                               typeName)
           = if 0 <? List.length (invalidFormats formats) then 1 else 0)
    /\ (invalidFormats formats <> [] ->
        cliAction dirOk writeOk write jsonExamples formats typeName
        = {| written := []; exitCode := 1 |})
    /\ (dirOk = false -> write = true ->
        cliAction dirOk writeOk write jsonExamples formats typeName
        = {| written := []; exitCode := 1 |})
    /\ (write = true ->
        exitCode (cliAction dirOk writeOk write jsonExamples formats typeName)
        = 0 ->
        List.length (written (cliAction dirOk writeOk write jsonExamples
                                        formats typeName))
        = List.length formats)
    /\ (invalidFormats formats = [] -> write = true -> dirOk = true ->
        (forall files filename, writeOk files filename = true) ->
        cliAction dirOk writeOk write jsonExamples formats typeName
        = {| written :=
               map (fun format =>
                      (outputFilename typeName format,
                       interpolate (Obj.get format
                                      (cliOutputs jsonExamples typeName))))
                   formats;
             exitCode := 0 |})
    /\ (forall f1 f2,
          In f1 ALL_FORMATS -> In f2 ALL_FORMATS ->
          outputFilename typeName f1 = outputFilename typeName f2 ->
          f1 = f2).
Proof.
  intros dirOk writeOk write jsonExamples formats typeName.
  assert (Hknown : forall format,
             In format ALL_FORMATS ->
             exists ext text,
               Obj.get format FORMAT_EXTENSIONS = Some ext
               /\ Obj.get format (cliOutputs jsonExamples typeName)
                  = Some text).
  { intros format [<-|[<-|[<-|[<-|[]]]]]; eexists _, _; split; reflexivity. }
  assert (Hinj : forall f1 f2,
             In f1 ALL_FORMATS -> In f2 ALL_FORMATS ->
             outputFilename typeName f1 = outputFilename typeName f2 ->
             f1 = f2).
  { intros f1 f2 [<-|[<-|[<-|[<-|[]]]]] [<-|[<-|[<-|[<-|[]]]]] H;
      try reflexivity;
      unfold outputFilename in H; simpl in H;
      apply str_append_inj in H; discriminate H. }
  unfold cliAction. cbv zeta.
  destruct (invalidFormats formats) as [|bad l] eqn:Einv; simpl Nat.ltb;
    cbv iota.
  - assert (Hvalid : forall format, In format formats ->
                                   In format ALL_FORMATS).
    { intros format Hf.
      pose proof (filter_nil_all _ _ Einv format Hf) as Hmem.
      apply negb_false_iff, str_mem_In in Hmem. exact Hmem. }
    split; [|split; [|split; [|split; [|split; [|split]]]]].
    + intros w Hw. destruct write; [|destruct Hw].
      destruct dirOk; [|destruct Hw].
      apply writeLoop_written in Hw.
      destruct Hw as [[]|(format & content & Hf & Hc & ->)].
      destruct (Hknown format (Hvalid format Hf)) as (ext & text & He & Ht).
      exists format, ext. split; [exact Hf|]. split; [auto|].
      split; [exact He|]. split; [exact Hc|].
      unfold outputFilename. rewrite He. reflexivity.
    + intros ->. auto.
    + intros H. congruence.
    + intros -> ->. reflexivity.
    + intros -> H. destruct dirOk; [|discriminate H].
      apply writeLoop_stops in H. exact H.
    + intros _ -> -> Hok.
      destruct (writeLoop_all_written writeOk typeName
                  (cliOutputs jsonExamples typeName) formats [])
        as [H0 H1]; [|exact Hok|].
      * intros format Hf.
        destruct (Hknown format (Hvalid format Hf)) as (ext & text & _ & Ht).
        congruence.
      * destruct (writeLoop _ _ _ _ _) as [wr ec]. simpl in H0, H1.
        subst. reflexivity.
    + exact Hinj.
  - split; [|split; [|split; [|split; [|split; [|split]]]]].
    + intros w [].
    + intros _. auto.
    + reflexivity.
    + reflexivity.
    + intros _ H. discriminate H.
    + intros H. discriminate H.
    + exact Hinj.
Qed.

Lemma cliAction_writes_witness :
  cliAction true (fun _ _ => true) true [example_a_b; example_a]
            ["zod"; "api-doc"] "User"
  = {| written :=
         map (fun format =>
                (outputFilename "User" format,
                 interpolate (Obj.get format
                                (cliOutputs [example_a_b; example_a] "User"))))
             ["zod"; "api-doc"];
       exitCode := 0 |}.
Proof.
  apply (proj1 (proj2 (proj2 (proj2 (proj2 (proj2
           (cliAction_writes true (fun _ _ => true) true
                             [example_a_b; example_a]
                             ["zod"; "api-doc"] "User"))))))).
  - reflexivity.
  - reflexivity.
  - reflexivity.
  - reflexivity.
Defined.

(** ** The data-model invariant without [__proto__] keys *)

Lemma td_invariant_unfold t :
  td_invariant t = true <->
  (kind t = KObject ->
   forall p, In p (opt_list (required t)) ->
             In p (Obj.keys (opt_list (properties t))))
  /\ (forall k x, In (k, x) (opt_list (properties t)) -> td_invariant x = true)
  /\ (forall i, items t = Some i -> td_invariant i = true).
Proof.
  destruct t as [k ps it rq d]. simpl.
  rewrite !andb_true_iff.
  assert (H1 : match k with
               | KObject =>
                   forallb (fun p => str_mem p (Obj.keys (opt_list ps)))
                           (opt_list rq)
               | _ => true
               end = true
               <-> (k = KObject ->
                    forall p, In p (opt_list rq) ->
                              In p (Obj.keys (opt_list ps)))).
  { destruct k; try (split; [discriminate|reflexivity]).
    rewrite forallb_forall. split.
    - intros H _ p Hp. apply str_mem_In, H, Hp.
    - intros H p Hp. apply str_mem_In, H; auto. }
  assert (H2 : match ps with
               | Some l => forallb (fun entry => td_invariant (snd entry)) l
               | None => true
               end = true
               <-> (forall k x, In (k, x) (opt_list ps) ->
                                td_invariant x = true)).
  { destruct ps as [l|]; simpl; [|split; [intros _ ? ? []|reflexivity]].
    rewrite forallb_forall. split.
    - intros H k' x Hin. apply (H (k', x) Hin).
    - intros H [k' x] Hin. apply (H k' x Hin). }
  assert (H3 : match it with Some i => td_invariant i | None => true end = true
               <-> (forall i, it = Some i -> td_invariant i = true)).
  { destruct it as [i|]; [|split; [discriminate|reflexivity]].
    split; [intros H i' [= <-]; exact H|auto]. }
  rewrite H1, H2, H3. tauto.
Qed.

Lemma td_invariant_prop_of p t x :
  td_invariant t = true -> prop_of p t = Some x -> td_invariant x = true.
Proof.
  intros Ht Hx. apply td_invariant_unfold in Ht. destruct Ht as (_ & Hps & _).
  unfold prop_of in Hx. destruct (properties t) as [ps|]; [|discriminate].
  apply ObjFacts.get_Some_In in Hx. apply (Hps p x Hx).
Qed.

Lemma td_invariant_object_of props req :
  (forall p, In p req -> In p (Obj.keys props)) ->
  (forall k x, In (k, x) props -> td_invariant x = true) ->
  td_invariant (object_of props req) = true.
Proof.
  intros Hreq Hprops. apply td_invariant_unfold. simpl.
  split; [auto|]. split; [exact Hprops|discriminate].
Qed.

Lemma td_no_proto_unfold t :
  td_no_proto t = true <->
  ~ In "__proto__" (Obj.keys (opt_list (properties t)))
  /\ (forall k x, In (k, x) (opt_list (properties t)) -> td_no_proto x = true)
  /\ (forall i, items t = Some i -> td_no_proto i = true).
Proof.
  destruct t as [k ps it rq d]. simpl.
  rewrite !andb_true_iff.
  assert (H2 : match ps with
               | Some l =>
                   negb (str_mem "__proto__" (Obj.keys l))
                   && forallb (fun entry => td_no_proto (snd entry)) l
               | None => true
               end = true
               <-> ~ In "__proto__" (Obj.keys (opt_list ps))
                   /\ (forall k x, In (k, x) (opt_list ps) ->
                                   td_no_proto x = true)).
  { destruct ps as [l|]; simpl;
      [|split; [intros _; split; [tauto|intros ? ? []]|reflexivity]].
    rewrite andb_true_iff, negb_true_iff, forallb_forall.
    rewrite <- not_true_iff_false, str_mem_In. split.
    - intros [Hk H]. split; [exact Hk|].
      intros k' x Hin. apply (H (k', x) Hin).
    - intros [Hk H]. split; [exact Hk|].
      intros [k' x] Hin. apply (H k' x Hin). }
  assert (H3 : match it with Some i => td_no_proto i | None => true end = true
               <-> (forall i, it = Some i -> td_no_proto i = true)).
  { destruct it as [i|]; [|split; [discriminate|reflexivity]].
    split; [intros H i' [= <-]; exact H|auto]. }
  rewrite H2, H3. tauto.
Qed.

Lemma td_no_proto_prop_of p t x :
  td_no_proto t = true -> prop_of p t = Some x -> td_no_proto x = true.
Proof.
  intros Ht Hx. apply td_no_proto_unfold in Ht. destruct Ht as (_ & Hps & _).
  unfold prop_of in Hx. destruct (properties t) as [ps|]; [|discriminate].
  apply ObjFacts.get_Some_In in Hx. apply (Hps p x Hx).
Qed.

Lemma td_no_proto_object_of props req :
  ~ In "__proto__" (Obj.keys props) ->
  (forall k x, In (k, x) props -> td_no_proto x = true) ->
  td_no_proto (object_of props req) = true.
Proof.
  intros Hk Hprops. apply td_no_proto_unfold. simpl.
  split; [exact Hk|]. split; [exact Hprops|discriminate].
Qed.

(** The two invariants together are kept by both merge functions. *)
Lemma td_invariant_merge n :
  forall w types,
    merge_measure w types < n ->
    (forall t, In t types -> td_invariant t = true /\ td_no_proto t = true) ->
    td_invariant (merge w types) = true /\ td_no_proto (merge w types) = true.
Proof.
  induction n as [|n IH]; intros w types Hlt Hall; [lia|].
  destruct w.
  - change (merge EnterMergeTypes types) with (mergeTypes types).
    destruct types as [|t0 [|t1 rest]].
    + rewrite mergeTypes_nil. split; reflexivity.
    + rewrite mergeTypes_one. apply Hall. simpl. auto.
    + rewrite mergeTypes_many. cbv zeta.
      destruct (forallb _ _); [|split; reflexivity].
      assert (H0 : td_invariant t0 = true /\ td_no_proto t0 = true)
        by (apply Hall; simpl; auto).
      destruct (kind t0); try exact H0.
      * destruct (items t0) as [i|]; [|exact H0].
        assert (Hi : td_invariant
                       (mergeTypes (defined (map items (t0 :: t1 :: rest))))
                     = true
                     /\ td_no_proto
                          (mergeTypes (defined (map items (t0 :: t1 :: rest))))
                        = true).
        { apply (IH EnterMergeTypes).
          - pose proof (merge_measure_items (t0 :: t1 :: rest)) as Hm.
            simpl List.length in Hm. lia.
          - intros x Hx. apply defined_In, in_map_iff in Hx.
            destruct Hx as (t & Hit & Ht).
            destruct (Hall t Ht) as [Ha Hb].
            apply td_invariant_unfold in Ha. apply td_no_proto_unfold in Hb.
            destruct Ha as (_ & _ & Ha). destruct Hb as (_ & _ & Hb). auto. }
        exact Hi.
      * apply (IH EnterMergeObject); [|exact Hall].
        pose proof (merge_measure_enter (t0 :: t1 :: rest)) as Hm.
        simpl List.length in Hm. lia.
  - change (merge EnterMergeObject types)
      with (mergeObjectTypeDefinitions types).
    rewrite mergeObjectTypeDefinitions_closed.
    assert (Hvalues : forall k x,
               In (k, x) (fold_left
                            (fun o p => Obj.set p (mergedType p types) o)
                            (allPropertyNames types) []) ->
               td_invariant x = true /\ td_no_proto x = true).
    { intros k x Hin. apply names_fold_values in Hin.
      destruct Hin as [[]|(p & _ & ->)].
      unfold mergedType, mergeCandidates.
      destruct (existsb is_inherited _); [split; reflexivity|].
      rewrite types_of_js_prop.
      apply (IH EnterMergeTypes).
      - pose proof (merge_measure_props p types). lia.
      - intros x Hx. apply defined_In, in_map_iff in Hx.
        destruct Hx as (t & Hpt & Ht). destruct (Hall t Ht) as [Ha Hb].
        split; [apply (td_invariant_prop_of p t x)
               |apply (td_no_proto_prop_of p t x)]; auto. }
    split.
    + apply td_invariant_object_of; [|intros k x Hin; apply (Hvalues k x Hin)].
      intros p Hp. apply filter_In in Hp. destruct Hp as [Hp _].
      apply names_fold_keys. right. split; [exact Hp|].
      apply allPropertyNames_In in Hp. destruct Hp as (t & Ht & Hp).
      apply has_prop_keys in Hp. destruct Hp as (ps & Hps & Hin).
      destruct (Hall t Ht) as [_ Hb]. apply td_no_proto_unfold in Hb.
      destruct Hb as (Hb & _). rewrite Hps in Hb. simpl in Hb.
      intros ->. contradiction.
    + apply (td_no_proto_object_of _ _);
        [|intros k x Hin; apply (Hvalues k x Hin)].
      intros Hin. apply names_fold_keys in Hin.
      destruct Hin as [[]|[_ Hne]]. congruence.
Qed.

Lemma td_no_proto_inferType v : td_no_proto (inferType v) = true.
Proof.
  induction v as [| s | n | b | elems IH | entries IH] using JSON_ind;
    try reflexivity.
  - destruct elems as [|x l]; [reflexivity|].
    inversion IH as [|? ? Hx _]; subst. simpl. rewrite Hx. reflexivity.
  - cbn [inferType]. apply td_no_proto_object_of.
    + intros Hin. apply (assign_fold_keys inferType) in Hin.
      destruct Hin as [[]|[_ Hne]]. congruence.
    + intros k x Hin. apply (assign_fold_values inferType) in Hin.
      destruct Hin as [[]|(e & He & ->)].
      rewrite Forall_forall in IH. apply IH, He.
Qed.

Lemma td_invariant_inferType v :
  json_no_proto v = true -> td_invariant (inferType v) = true.
Proof.
  induction v as [| s | n | b | elems IH | entries IH] using JSON_ind;
    intros Hnp; try reflexivity.
  - destruct elems as [|x l]; [reflexivity|].
    inversion IH as [|? ? Hx _]; subst. simpl in Hnp.
    apply andb_true_iff in Hnp. simpl. apply Hx, Hnp.
  - cbn [json_no_proto] in Hnp. apply andb_true_iff in Hnp.
    destruct Hnp as [Hk Hvs].
    rewrite forallb_forall in Hvs. rewrite Forall_forall in IH.
    cbn [inferType]. apply td_invariant_object_of.
    + intros p Hp. apply (assign_fold_keys inferType). right.
      split; [exact Hp|]. intros ->. apply str_mem_In in Hp.
      rewrite Hp in Hk. discriminate Hk.
    + intros k x Hin. apply (assign_fold_values inferType) in Hin.
      destruct Hin as [[]|(e & He & ->)]. apply IH; auto.
Qed.

(** X15: without [__proto__] keys the [required] list of every object node
    is a subset of the keys of its [properties], at every depth: for
    [inferType] on a value none of whose objects has the key [__proto__], for
    [inferTypeFromExamples] on such values, and for the object-merge of nodes
    that satisfy the invariant and have no own [__proto__] property.  The
    nodes [inferType] builds never have an own [__proto__] property. *)
Theorem required_subset_without_proto :
  (forall v, json_no_proto v = true -> td_invariant (inferType v) = true)
  /\ (forall examples,
        (forall e, In e examples -> json_no_proto e = true) ->
        td_invariant (inferTypeFromExamples examples) = true)
  /\ (forall types,
        (forall t, In t types ->
                   td_invariant t = true /\ td_no_proto t = true) ->
        td_invariant (mergeObjectTypeDefinitions types) = true
        /\ td_no_proto (mergeObjectTypeDefinitions types) = true)
  /\ (forall v, td_no_proto (inferType v) = true).
Proof.
  assert (Hmerge : forall types,
             (forall t, In t types ->
                        td_invariant t = true /\ td_no_proto t = true) ->
             td_invariant (mergeObjectTypeDefinitions types) = true
             /\ td_no_proto (mergeObjectTypeDefinitions types) = true).
  { intros types Hall.
    apply (td_invariant_merge (S (merge_measure EnterMergeObject types))
                              EnterMergeObject);
      [lia|exact Hall]. }
  split; [exact td_invariant_inferType|].
  split; [|split; [exact Hmerge|exact td_no_proto_inferType]].
  intros [|e0 [|e1 rest]] Hnp;
    [reflexivity|apply td_invariant_inferType, Hnp; left; reflexivity|].
  set (examples := e0 :: e1 :: rest) in *.
  assert (Hall : forall t, In t (map inferType examples) ->
                           td_invariant t = true /\ td_no_proto t = true).
  { intros t Ht. apply in_map_iff in Ht. destruct Ht as (e & <- & He).
    split; [apply td_invariant_inferType, Hnp, He
           |apply td_no_proto_inferType]. }
  unfold examples at 1. rewrite inferTypeFromExamples_many. cbv zeta.
  fold examples.
  destruct (forallb _ _).
  - apply Hmerge. intros t Ht. apply filter_In in Ht. apply Hall, Ht.
  - destruct (find _ _) as [t|] eqn:E; [|reflexivity].
    apply find_some in E. apply Hall, E.
Qed.

Lemma required_subset_without_proto_witness :
  td_invariant (inferTypeFromExamples [example_constructor; nested_example])
  = true.
Proof.
  apply (proj1 (proj2 required_subset_without_proto)
               [example_constructor; nested_example]).
  intros e [<-|[<-|[]]]; reflexivity.
Defined.

(** ** The partition the object-merge computes *)


